(** * js-loadbalancer: routing decisions and the health state machine

    A shallow embedding of the load balancer's decision core
    ([getTargetForIp], [checkTargetHealth], [performHealthCheck], the
    request handler, the proxy error callback and [shutdown]) together with
    the properties its specification states about them.

    The repository holds three revisions of [index.js] and two of
    [config.js].  The newest revision of [index.js] (failover that prefers
    service 1, a [/status] endpoint, WebSocket upgrades) is embedded in full
    in [Section LoadBalancer]; the parts of the two older revisions that
    differ in behaviour are embedded in [Module Rev2] and [Module Rev3].

    Conventions.
    - JS numbers used as counters ([failures], [successes], [current],
      thresholds) hold small non-negative integers and are modelled by
      [nat]; durations and clock readings in milliseconds are in [N]; an
      HTTP status code is a [Z].
    - [Map] objects keyed by strings are [gmap string _]; the [Set] of
      in-flight request objects is a [gset] of request identities.
    - A function that may raise a JS exception returns a [Completion]; the
      state it returns is the one reached when the exception was raised.
    - [async] functions are split at their [await]: the part run by the
      caller, and the continuation run when the awaited promise resolves. *)

From stdpp Require Import gmap strings list fin_maps.
From Stdlib Require Import ZArith Lia.

(** ** Configuration ([config.js]) *)

Module StickySession.
Record t := mk { enabled : bool; resetInterval : N }.
End StickySession.

Module HealthCheck.
Record t := mk {
  enabled : bool;
  interval : N;
  timeout : N;
  path : string;
  method : string;
  unhealthyThreshold : nat;
  healthyThreshold : nat;
}.
End HealthCheck.

Module Failover.
Record t := mk { enabled : bool }.
End Failover.

Module Server.
Record t := mk { port : N; host : string }.
End Server.

(** The [failover] section is optional: one of the two revisions of
    [config.js] has none, and reading [config.failover] then yields
    [undefined]. *)
Record Config := mkConfig {
  stickySession : StickySession.t;
  healthCheck : HealthCheck.t;
  failover : option Failover.t;
  server : Server.t;
}.

(** [src/config.js]: sticky sessions on, no failover section. *)
Definition config : Config :=
  {| stickySession := StickySession.mk true (24 * 60 * 60 * 1000);
     healthCheck := HealthCheck.mk true 5000 3000 "/health" "GET" 2 1;
     failover := None;
     server := Server.mk 8080 "localhost" |}.

(** The revision of [config.js] that accompanies the newest [index.js]:
    sticky sessions off, failover on. *)
Definition config_failover : Config :=
  {| stickySession := StickySession.mk false (24 * 60 * 60 * 1000);
     healthCheck := HealthCheck.mk true 5000 3000 "/" "GET" 2 1;
     failover := Some (Failover.mk true);
     server := Server.mk 8080 "localhost" |}.

(** ** Data model *)

(** The per-target record stored in [targetHealth].  [lastCheck] is the
    clock reading at the last probe (the source stores its ISO string). *)
Record Health := mkHealth {
  isHealthy : bool;
  failures : nat;
  successes : nat;
  latency : option N;
  lastCheck : option N;
}.

Definition initialHealth : Health := mkHealth true 0 0 None None.

(** The object a probe promise resolves with. *)
Record HealthResult := mkResult {
  res_isHealthy : bool;
  res_error : option string;
  res_statusCode : option Z;
  res_latency : option N;
}.

(** What the network reports for a probe request: a response with a status
    code, an [error] event or a [timeout] event. *)
Inductive ProbeOutcome :=
| Response (statusCode : Z)
| ConnError (message : string)
| Timeout.

Inductive JsError := TypeError.

Inductive Completion (A : Type) :=
| Normal (a : A)
| Throw (e : JsError).
Arguments Normal {A} a.
Arguments Throw {A} e.

(** The text of [errorMsg] in [performHealthCheck]. *)
Inductive ErrorMsg :=
| StatusMsg (code : Z)
| TextMsg (msg : string).

(** Lines written by [performHealthCheck].  [NowHealthy] and [NowUnhealthy]
    are the two transition events. *)
Inductive LogLine :=
| NowHealthy (target : string)
| NowUnhealthy (target : string) (msg : ErrorMsg)
| CheckFailed (target : string) (count threshold : nat) (msg : ErrorMsg).

(** The module-level variables of [index.js].  [awaiting] and [microtasks]
    hold the suspended [performHealthCheck] calls: those whose probe request
    has not produced an event yet, and those whose promise is resolved and
    whose continuation has not run yet.  [nextReq] names the next request
    object. *)
Record State := mkState {
  targetHealth : gmap string Health;
  sessionMap : gmap string string;
  current : nat;
  isShuttingDown : bool;
  healthCheckIntervals : gset string;
  activeHealthCheckRequests : gset nat;
  awaiting : gmap nat string;
  microtasks : list (string * HealthResult);
  nextReq : nat;
}.

Definition set_targetHealth (f : gmap string Health → gmap string Health) (s : State) : State :=
  mkState (f (targetHealth s)) (sessionMap s) (current s) (isShuttingDown s)
          (healthCheckIntervals s) (activeHealthCheckRequests s) (awaiting s)
          (microtasks s) (nextReq s).

Definition set_sessionMap (f : gmap string string → gmap string string) (s : State) : State :=
  mkState (targetHealth s) (f (sessionMap s)) (current s) (isShuttingDown s)
          (healthCheckIntervals s) (activeHealthCheckRequests s) (awaiting s)
          (microtasks s) (nextReq s).

Definition set_current (n : nat) (s : State) : State :=
  mkState (targetHealth s) (sessionMap s) n (isShuttingDown s)
          (healthCheckIntervals s) (activeHealthCheckRequests s) (awaiting s)
          (microtasks s) (nextReq s).

Definition set_isShuttingDown (b : bool) (s : State) : State :=
  mkState (targetHealth s) (sessionMap s) (current s) b
          (healthCheckIntervals s) (activeHealthCheckRequests s) (awaiting s)
          (microtasks s) (nextReq s).

Definition set_healthCheckIntervals (f : gset string → gset string) (s : State) : State :=
  mkState (targetHealth s) (sessionMap s) (current s) (isShuttingDown s)
          (f (healthCheckIntervals s)) (activeHealthCheckRequests s) (awaiting s)
          (microtasks s) (nextReq s).

Definition set_activeHealthCheckRequests (f : gset nat → gset nat) (s : State) : State :=
  mkState (targetHealth s) (sessionMap s) (current s) (isShuttingDown s)
          (healthCheckIntervals s) (f (activeHealthCheckRequests s)) (awaiting s)
          (microtasks s) (nextReq s).

Definition set_awaiting (f : gmap nat string → gmap nat string) (s : State) : State :=
  mkState (targetHealth s) (sessionMap s) (current s) (isShuttingDown s)
          (healthCheckIntervals s) (activeHealthCheckRequests s) (f (awaiting s))
          (microtasks s) (nextReq s).

Definition set_microtasks (f : list (string * HealthResult) → list (string * HealthResult))
    (s : State) : State :=
  mkState (targetHealth s) (sessionMap s) (current s) (isShuttingDown s)
          (healthCheckIntervals s) (activeHealthCheckRequests s) (awaiting s)
          (f (microtasks s)) (nextReq s).

Definition set_nextReq (n : nat) (s : State) : State :=
  mkState (targetHealth s) (sessionMap s) (current s) (isShuttingDown s)
          (healthCheckIntervals s) (activeHealthCheckRequests s) (awaiting s)
          (microtasks s) n.

(** [health && health.isHealthy] *)
Definition targetIsHealthy (s : State) (target : string) : bool :=
  match targetHealth s !! target with
  | Some health => isHealthy health
  | None => false
  end.

(** [health && !health.isHealthy] *)
Definition targetIsDown (s : State) (target : string) : bool :=
  match targetHealth s !! target with
  | Some health => negb (isHealthy health)
  | None => false
  end.

(** ** Probe results ([checkTargetHealth]) *)

(** The result resolved without any request when [isShuttingDown] is set. *)
Definition shuttingDownResult : HealthResult :=
  mkResult false (Some "Shutting down") None None.

(** The response callback and the [error] and [timeout] listeners (lines
    148-176): what the promise of [checkTargetHealth] resolves with. *)
Definition probeResult (o : ProbeOutcome) (latency : N) : HealthResult :=
  match o with
  | Response statusCode =>
      mkResult (statusCode =? 200)%Z None (Some statusCode) (Some latency)
  | ConnError message => mkResult false (Some message) None (Some latency)
  | Timeout => mkResult false (Some "Timeout") None (Some latency)
  end.

(** [result.statusCode ? `Status code ...` : (result.error || "Unknown error")] *)
Definition errorMsg (result : HealthResult) : ErrorMsg :=
  let text :=
    match res_error result with
    | Some e => if String.eqb e "" then TextMsg "Unknown error" else TextMsg e
    | None => TextMsg "Unknown error"
    end in
  match res_statusCode result with
  | Some code => if (code =? 0)%Z then text else StatusMsg code
  | None => text
  end.

(** The loop over [sessionMap.entries()] that deletes every entry whose
    cached target is [target] (lines 214-218). *)
Definition purgeSessions (target : string) (m : gmap string string) : gmap string string :=
  foldr (λ entry acc, if String.eqb (snd entry) target then delete (fst entry) acc else acc)
        m (map_to_list m).

(** ** The newest revision of [index.js]

    Lines 31 to 440 of [src/unnamed/part_000].  The strings of [targets] are
    taken to be well-formed URLs, so that [new URL(target)] does not throw. *)

Section LoadBalancer.

(** The imported [config] and the [targets] array. *)
Variable cfg : Config.
Variable targets : list string.

Definition initialState : State :=
  mkState (foldl (λ m target, <[target := initialHealth]> m) ∅ targets)
          ∅ 0 false ∅ ∅ ∅ [] 0.

(** [getHealthyTargets] (lines 65-70). *)
Definition getHealthyTargets (s : State) : list string :=
  List.filter (targetIsHealthy s) targets.

(** The round-robin tail of [getTargetForIp] (lines 108-122).  The index
    [current % healthyTargets.length] is always in range
    ([roundRobin_index_in_range]); the [None] branch stands for the
    [undefined] an out-of-range read would give. *)
Definition roundRobin (ip : string) (s : State) : Completion (option string) * State :=
  let healthyTargets := getHealthyTargets s in
  if length healthyTargets =? 0 then (Normal None, s)
  else
    let s1 := set_current ((current s + 1) mod length healthyTargets) s in
    match healthyTargets !! (current s mod length healthyTargets) with
    | Some target =>
        if StickySession.enabled (stickySession cfg)
        then (Normal (Some target), set_sessionMap (insert ip target) s1)
        else (Normal (Some target), s1)
    | None => (Normal None, s1)
    end.

(** The sticky-session prefix of [getTargetForIp] (lines 73-80): [inl cached] when the
    function returns the cached target, [inr s'] when it goes on in state
    [s'] (the stale entry, if any, deleted). *)
Definition stickyLookup (ip : string) (s : State) : string + State :=
  if StickySession.enabled (stickySession cfg) then
    match sessionMap s !! ip with
    | Some cachedTarget =>
        if targetIsHealthy s cachedTarget then inl cachedTarget
        else inr (set_sessionMap (delete ip) s)
    | None => inr s
    end
  else inr s.

(** [sessionMap.set(ip, target)] under [config.stickySession.enabled]. *)
Definition remember (ip target : string) (s : State) : State :=
  if StickySession.enabled (stickySession cfg)
  then set_sessionMap (insert ip target) s
  else s.

(** [getTargetForIp] (lines 72-123).  [None] is [null]; reading
    [config.failover.enabled] throws when [config.failover] is [undefined]. *)
Definition getTargetForIp (ip : string) (s : State) : Completion (option string) * State :=
  match stickyLookup ip s with
  | inl cachedTarget => (Normal (Some cachedTarget), s)
  | inr s1 =>
      match failover cfg with
      | None => (Throw TypeError, s1)
      | Some fo =>
          if Failover.enabled fo && (2 <=? length targets) then
            match targets !! 0, targets !! 1 with
            | Some service1, Some service2 =>
                if targetIsHealthy s1 service1 then
                  (Normal (Some service1), remember ip service1 s1)
                else if targetIsDown s1 service1 && targetIsHealthy s1 service2 then
                  (Normal (Some service2), remember ip service2 s1)
                else roundRobin ip s1
            | _, _ => roundRobin ip s1
            end
          else roundRobin ip s1
      end
  end.

(** [checkTargetHealth(target)] (lines 125-181) up to the point where its
    promise is returned: either the promise is already resolved (shutting
    down), or a request has been sent and added to
    [activeHealthCheckRequests].  What the promise resolves with once the
    request produces an event is [probeResult]. *)
Definition checkTargetHealth (target : string) (s : State) : State :=
  if isShuttingDown s then
    set_microtasks (λ q, q ++ [(target, shuttingDownResult)]) s
  else
    let req := nextReq s in
    set_nextReq (S req)
      (set_awaiting (insert req target)
        (set_activeHealthCheckRequests (λ a, {[req]} ∪ a) s)).

(** [performHealthCheck(target)] as seen by its caller: it runs
    [checkTargetHealth] and suspends at the [await]. *)
Definition performHealthCheck (target : string) (s : State) : State :=
  checkTargetHealth target s.

Definition updateLatency (result : HealthResult) (now : N) (health : Health) : Health :=
  mkHealth (isHealthy health) (failures health) (successes health)
           (match res_latency result with
            | Some l => Some l
            | None => latency health
            end)
           (Some now).

Definition recordSuccess (health : Health) : Health :=
  mkHealth (isHealthy health) 0 (successes health + 1) (latency health) (lastCheck health).

Definition recordFailure (health : Health) : Health :=
  mkHealth (isHealthy health) (failures health + 1) 0 (latency health) (lastCheck health).

Definition setHealthy (b : bool) (health : Health) : Health :=
  mkHealth b (failures health) (successes health) (latency health) (lastCheck health).

(** The continuation of [performHealthCheck] after the [await] (lines
    185-223): the probe result is applied to the target's record.  [now] is
    the clock.  A target without a record makes [health.lastCheck = ...]
    throw. *)
Definition applyResult (target : string) (result : HealthResult) (now : N) (s : State)
    : Completion (list LogLine) * State :=
  match targetHealth s !! target with
  | None => (Throw TypeError, s)
  | Some health0 =>
      let health := updateLatency result now health0 in
      if res_isHealthy result then
        let health := recordSuccess health in
        if negb (isHealthy health)
           && (HealthCheck.healthyThreshold (healthCheck cfg) <=? successes health)
        then (Normal [NowHealthy target],
              set_targetHealth (insert target (setHealthy true health)) s)
        else (Normal [], set_targetHealth (insert target health) s)
      else
        let health := recordFailure health in
        if isHealthy health
           && (HealthCheck.unhealthyThreshold (healthCheck cfg) <=? failures health)
        then (Normal [NowUnhealthy target (errorMsg result)],
              set_sessionMap (purgeSessions target)
                (set_targetHealth (insert target (setHealthy false health)) s))
        else if negb (isHealthy health)
        then (Normal [CheckFailed target (failures health)
                        (HealthCheck.unhealthyThreshold (healthCheck cfg)) (errorMsg result)],
              set_targetHealth (insert target health) s)
        else (Normal [], set_targetHealth (insert target health) s)
  end.

(** The error callback of [proxy.web] (lines 340-344) and of [proxy.ws]
    (lines 394-398): the dispatch failure fast path. *)
Definition onProxyError (target : string) (s : State) : State :=
  match targetHealth s !! target with
  | Some health =>
      performHealthCheck target
        (set_targetHealth
           (insert target (mkHealth (isHealthy health) (failures health + 1)
                             (successes health) (latency health) (lastCheck health))) s)
  | None => s
  end.

(** [startHealthChecks] (lines 226-245): one immediate probe and one timer
    per target. *)
Definition startHealthChecks (s : State) : State :=
  if HealthCheck.enabled (healthCheck cfg) then
    foldl (λ s target,
             set_healthCheckIntervals (λ i, {[target]} ∪ i) (performHealthCheck target s))
          s targets
  else s.

(** [stopHealthChecks] (lines 247-255).  [req.destroy()] on the in-flight
    requests is an effect on the network; what it does to the state is the
    two [clear()] calls. *)
Definition stopHealthChecks (s : State) : State :=
  set_activeHealthCheckRequests (λ _, ∅) (set_healthCheckIntervals (λ _, ∅) s).

(** [shutdown] (lines 418-437), up to the exit of the process. *)
Definition shutdown (s : State) : State :=
  if isShuttingDown s then s
  else stopHealthChecks (set_isShuttingDown true s).

(** The outcome of the request handler (lines 277-350) for a request that
    is not [GET /status]: a 503 response, or the request handed to the
    proxy. *)
Inductive Reply :=
| ServiceUnavailable
| Forward (target : string).

(** [if (!target)]: [null] and the empty string are falsy. *)
Definition requestHandler (ip : string) (s : State) : Completion Reply * State :=
  match getTargetForIp ip s with
  | (Throw e, s1) => (Throw e, s1)
  | (Normal None, s1) => (Normal ServiceUnavailable, s1)
  | (Normal (Some target), s1) =>
      if String.eqb target "" then (Normal ServiceUnavailable, s1)
      else (Normal (Forward target), s1)
  end.

End LoadBalancer.

(** ** The event loop

    Every callback of [index.js] runs to completion; the continuation of a
    [performHealthCheck] whose promise is resolved runs as a microtask right
    after the callback that resolved it. *)

(** The events the process reacts to: [Listening], the callback of
    [server.listen], which starts the probes; [Request ip], an HTTP request
    other than [GET /status], or a WebSocket upgrade, from client [ip];
    [ProxyError target], the error callback of the proxy for a request sent
    to [target]; [Tick target], the probe timer of [target];
    [ProbeEvent req o latency], the response, [error] or [timeout] event of
    probe request [req], [latency] milliseconds after it was sent;
    [SessionReset], the timer that clears the sticky sessions; [Signal],
    SIGINT or SIGTERM. *)
Inductive Event :=
| Listening
| Request (ip : string)
| ProxyError (target : string)
| Tick (target : string)
| ProbeEvent (req : nat) (o : ProbeOutcome) (latency : N)
| SessionReset
| Signal.

Section EventLoop.

Variable cfg : Config.
Variable targets : list string.

(** The continuations of the resolved [performHealthCheck] calls, in the
    order in which their promises were resolved. *)
Fixpoint runMicrotasks (q : list (string * HealthResult)) (now : N) (s : State)
    : Completion (list LogLine) * State :=
  match q with
  | [] => (Normal [], s)
  | (target, result) :: q' =>
      match applyResult cfg target result now s with
      | (Normal l, s1) =>
          match runMicrotasks q' now s1 with
          | (Normal l', s2) => (Normal (l ++ l'), s2)
          | (Throw e, s2) => (Throw e, s2)
          end
      | (Throw e, s1) => (Throw e, s1)
      end
  end.

Definition drain (now : N) (s : State) : Completion (list LogLine) * State :=
  runMicrotasks (microtasks s) now (set_microtasks (λ _, []) s).

(** One turn of the event loop at clock reading [now].  The log returned
    holds the lines of [performHealthCheck] only; what the listeners of
    [checkTargetHealth] and the handlers print themselves is not part of
    it. *)
Definition step (now : N) (e : Event) (s : State) : Completion (list LogLine) * State :=
  match e with
  | Listening => drain now (startHealthChecks cfg targets s)
  | Request ip =>
      match requestHandler cfg targets ip s with
      | (Normal _, s1) => (Normal [], s1)
      | (Throw e, s1) => (Throw e, s1)
      end
  | ProxyError target => drain now (onProxyError target s)
  | Tick target =>
      if decide (target ∈ healthCheckIntervals s)
      then drain now (performHealthCheck target s)
      else (Normal [], s)
  | ProbeEvent req o latency =>
      let s1 := set_activeHealthCheckRequests (λ a, a ∖ {[req]}) s in
      match awaiting s !! req with
      | Some target =>
          applyResult cfg target (probeResult o latency) now (set_awaiting (delete req) s1)
      | None => (Normal [], s1)
      end
  | SessionReset =>
      if StickySession.enabled (stickySession cfg)
      then (Normal [], set_sessionMap (λ _, ∅) s)
      else (Normal [], s)
  | Signal => (Normal [], shutdown s)
  end.

(** A run of the event loop; it ends at the first uncaught exception. *)
Fixpoint run (es : list (N * Event)) (s : State) : Completion (list LogLine) * State :=
  match es with
  | [] => (Normal [], s)
  | (now, e) :: es' =>
      match step now e s with
      | (Normal l, s1) =>
          match run es' s1 with
          | (Normal l', s2) => (Normal (l ++ l'), s2)
          | (Throw e, s2) => (Throw e, s2)
          end
      | (Throw e, s1) => (Throw e, s1)
      end
  end.

End EventLoop.

(** ** The two older revisions of [index.js] *)

(** The revision whose failover block only redirects to service 2 (lines
    440 to 739; [getTargetForIp] at 479-520, the response callback of
    [checkTargetHealth] at 544-556). *)
Module Rev2.

Definition probeResult (o : ProbeOutcome) : HealthResult :=
  match o with
  | Response statusCode => mkResult (statusCode =? 200)%Z None (Some statusCode) None
  | ConnError message => mkResult false (Some message) None None
  | Timeout => mkResult false (Some "Timeout") None None
  end.

Definition getTargetForIp (cfg : Config) (targets : list string) (ip : string) (s : State)
    : Completion (option string) * State :=
  match stickyLookup cfg ip s with
  | inl cachedTarget => (Normal (Some cachedTarget), s)
  | inr s1 =>
      match failover cfg with
      | None => (Throw TypeError, s1)
      | Some fo =>
          if Failover.enabled fo && (2 <=? length targets) then
            match targets !! 0, targets !! 1 with
            | Some service1, Some service2 =>
                if targetIsDown s1 service1 && targetIsHealthy s1 service2 then
                  (Normal (Some service2), remember cfg ip service2 s1)
                else roundRobin cfg targets ip s1
            | _, _ => roundRobin cfg targets ip s1
            end
          else roundRobin cfg targets ip s1
      end
  end.

End Rev2.

(** The oldest revision (lines 739 to 977; [getTargetForIp] at 777-801, the
    response callback of [checkTargetHealth] at 822-827): no failover, any
    status from 200 to 399 is healthy. *)
Module Rev3.

Definition probeResult (o : ProbeOutcome) : HealthResult :=
  match o with
  | Response statusCode =>
      mkResult ((200 <=? statusCode)%Z && (statusCode <? 400)%Z) None None None
  | ConnError message => mkResult false (Some message) None None
  | Timeout => mkResult false (Some "Timeout") None None
  end.

Definition getTargetForIp (cfg : Config) (targets : list string) (ip : string) (s : State)
    : Completion (option string) * State :=
  match stickyLookup cfg ip s with
  | inl cachedTarget => (Normal (Some cachedTarget), s)
  | inr s1 => roundRobin cfg targets ip s1
  end.

End Rev3.

(** ** The request handler around the selection

    [getClientIp], the [X-Forwarded-For] header the handler sends on, and
    the report of [GET /status] (newest revision, lines 60-63, 259-275 and
    304-308).  Here the characters of a string matter, so a JS string is the
    list of its UTF-16 code units. *)

Definition jsstring := list N.

Fixpoint takeWhile {A : Type} (p : A → bool) (l : list A) : list A :=
  match l with
  | [] => []
  | x :: l' => if p x then x :: takeWhile p l' else []
  end.

Fixpoint dropWhile {A : Type} (p : A → bool) (l : list A) : list A :=
  match l with
  | [] => []
  | x :: l' => if p x then dropWhile p l' else l
  end.

(** The code units [String.prototype.trim] strips: ECMAScript's WhiteSpace
    (tab, vertical tab, form feed, space, no-break space, U+FEFF and the
    space separators U+1680, U+2000 to U+200A, U+202F, U+205F, U+3000) and
    LineTerminator (line feed, carriage return, U+2028, U+2029). *)
Definition isWhiteSpace (c : N) : bool :=
  ((9 <=? c) && (c <=? 13) || (c =? 32) || (c =? 160) || (c =? 5760)
   || (8192 <=? c) && (c <=? 8202) || (c =? 8232) || (c =? 8233) || (c =? 8239)
   || (c =? 8287) || (c =? 12288) || (c =? 65279))%N.

(** [s.trim()] *)
Definition trim (l : jsstring) : jsstring :=
  reverse (dropWhile isWhiteSpace (reverse (dropWhile isWhiteSpace l))).

(** The code unit of [","]. *)
Definition comma : N := 44.

(** [s.split(",")[0]]: the characters before the first comma. *)
Definition firstField (l : jsstring) : jsstring :=
  takeWhile (λ c, negb (c =? comma)%N) l.

(** [getClientIp(req)] (lines 60-63), from the value of the
    [x-forwarded-for] header and [req.socket.remoteAddress]; [None] is
    [undefined], and [undefined] and the empty string are falsy. *)
Definition getClientIp (forwarded remoteAddress : option jsstring) : option jsstring :=
  match forwarded with
  | Some (c :: l) => Some (trim (firstField (c :: l)))
  | _ => remoteAddress
  end.

(** The code units of ["undefined"], what a template literal makes of
    [undefined]. *)
Definition undefinedText : jsstring := [117; 110; 100; 101; 102; 105; 110; 101; 100]%N.

(** [existingForwardedFor ? `${existingForwardedFor}, ${ip}` : ip] (lines
    304-308 and 369-373). *)
Definition forwardedFor (existingForwardedFor ip : option jsstring) : option jsstring :=
  match existingForwardedFor with
  | Some (c :: l) => Some ((c :: l) ++ [comma; 32%N] ++ default undefinedText ip)
  | _ => ip
  end.

(** One element of the array sent by [GET /status] (lines 260-270). *)
Record StatusEntry := mkStatusEntry {
  url : string;
  alive : bool;
  status_latency : option N;
  status_lastCheck : option N;
  status_failures : nat;
  status_successes : nat;
}.

Definition statusData (targets : list string) (s : State) : list StatusEntry :=
  map (λ target,
         match targetHealth s !! target with
         | Some health =>
             mkStatusEntry target (isHealthy health) (latency health) (lastCheck health)
                           (failures health) (successes health)
         | None => mkStatusEntry target false None None 0 0
         end)
      targets.

(** * Vocabulary of the properties *)

(** The transition events among the lines of a log. *)
Definition isTransition (l : LogLine) : bool :=
  match l with
  | NowHealthy _ | NowUnhealthy _ _ => true
  | CheckFailed _ _ _ _ => false
  end.

Definition transitions (log : list LogLine) : list LogLine :=
  List.filter isTransition log.

Definition failuresOf (s : State) (target : string) : nat :=
  match targetHealth s !! target with
  | Some health => failures health
  | None => 0
  end.

Definition successesOf (s : State) (target : string) : nat :=
  match targetHealth s !! target with
  | Some health => successes health
  | None => 0
  end.

(** The flag a registered target has after a probe result is applied to its
    record [h]. *)
Definition flagAfter (cfg : Config) (result : HealthResult) (h : Health) : bool :=
  if res_isHealthy result then
    isHealthy h || (HealthCheck.healthyThreshold (healthCheck cfg) <=? successes h + 1)
  else
    isHealthy h && negb (HealthCheck.unhealthyThreshold (healthCheck cfg) <=? failures h + 1).

Definition flags (s : State) : gmap string bool := isHealthy <$> targetHealth s.

(** The successive applications of the probe results [rs] to [target]: the
    state before, the result, the lines logged and the state after. *)
Fixpoint probeTrace (cfg : Config) (target : string) (rs : list (HealthResult * N))
    (s : State) : list (State * HealthResult * list LogLine * State) :=
  match rs with
  | [] => []
  | (result, now) :: rs' =>
      match applyResult cfg target result now s with
      | (Normal log, s1) => (s, result, log, s1) :: probeTrace cfg target rs' s1
      | (Throw _, _) => []
      end
  end.

(** What one application may do to the flag of [target], and what it logs. *)
Definition flipJustified (cfg : Config) (target : string)
    (a : State * HealthResult * list LogLine * State) : Prop :=
  let '(s1, result, log, s2) := a in
  match targetIsHealthy s1 target, targetIsHealthy s2 target with
  | true, false =>
      res_isHealthy result = false
      ∧ HealthCheck.unhealthyThreshold (healthCheck cfg) ≤ failuresOf s2 target
      ∧ transitions log = [NowUnhealthy target (errorMsg result)]
  | false, true =>
      res_isHealthy result = true
      ∧ HealthCheck.healthyThreshold (healthCheck cfg) ≤ successesOf s2 target
      ∧ transitions log = [NowHealthy target]
  | _, _ => transitions log = []
  end.

(** Every sticky entry references a target that is healthy now. *)
Definition sessionsHealthy (s : State) : Prop :=
  ∀ ip target, sessionMap s !! ip = Some target → targetIsHealthy s target = true.

(** The probe results [rs] applied to [target] one after the other: the
    lines logged and the final state. *)
Fixpoint applyResults (cfg : Config) (target : string) (rs : list (HealthResult * N))
    (s : State) : Completion (list LogLine) * State :=
  match rs with
  | [] => (Normal [], s)
  | (result, now) :: rs' =>
      match applyResult cfg target result now s with
      | (Normal log, s1) =>
          match applyResults cfg target rs' s1 with
          | (Normal log', s2) => (Normal (log ++ log'), s2)
          | (Throw e, s2) => (Throw e, s2)
          end
      | (Throw e, s1) => (Throw e, s1)
      end
  end.

(** [n] successive calls [getTargetForIp(ip)]: the values returned and the
    state after the last call (the calls end at the first exception). *)
Fixpoint selectRepeatedly (cfg : Config) (targets : list string) (ip : string) (n : nat)
    (s : State) : list (Completion (option string)) * State :=
  match n with
  | 0 => ([], s)
  | S n' =>
      match getTargetForIp cfg targets ip s with
      | (Normal v, s1) =>
          let '(vs, s2) := selectRepeatedly cfg targets ip n' s1 in (Normal v :: vs, s2)
      | (Throw e, s1) => ([Throw e], s1)
      end
  end.

(** * Sample configurations and states *)

(** The [targets] array of the newest revision of [index.js]. *)
Definition targetA : string := "https://h1.example.com".
Definition targetB : string := "https://h2.example.com".
Definition configuredTargets : list string := [targetA; targetB].

(** A configuration with sticky sessions on and failover switched off, as in
    the scenario of the specification: the first call for a client takes the
    first round-robin slot, the next calls hit the sticky entry. *)
Definition config_sticky : Config :=
  {| stickySession := StickySession.mk true (24 * 60 * 60 * 1000);
     healthCheck := HealthCheck.mk true 5000 3000 "/health" "GET" 2 1;
     failover := Some (Failover.mk false);
     server := Server.mk 8080 "localhost" |}.

Definition sampleResults : list (HealthResult * N) :=
  [(probeResult Timeout 3000, 1%N); (probeResult (Response 503) 12, 2%N);
   (probeResult (ConnError "ECONNREFUSED") 1, 3%N); (probeResult (Response 200) 20, 4%N)].

(** A state the event loop reaches from the initial one: the target has had
    one successful probe.  A dispatch failure then leaves both counters at
    1 until the out-of-band probe is answered. *)
Definition afterOneSuccess : State :=
  snd (run config_failover configuredTargets
         [(1%N, Listening); (2%N, ProbeEvent 0 (Response 200) 12)]
         (initialState configuredTargets)).

Definition afterFirstSelect : State :=
  snd (getTargetForIp config_sticky configuredTargets "ip1" (initialState configuredTargets)).

(** Both targets healthy, failover on, sticky sessions off, after one
    request has moved the cursor to 1. *)
Definition afterOneRequestRev2 : State :=
  snd (Rev2.getTargetForIp config_failover configuredTargets "ip1" (initialState configuredTargets)).

(** ... and with service 1 down. *)
Definition serviceOneDown : State :=
  set_targetHealth (insert targetA (mkHealth false 2 0 None None)) afterOneRequestRev2.

(** Both targets driven unhealthy by two timed-out probes each. *)
Definition allDown : State :=
  snd (run config_failover configuredTargets
         [(1%N, Listening);
          (2%N, ProbeEvent 0 Timeout 3000); (3%N, ProbeEvent 1 Timeout 3000);
          (4%N, Tick targetA); (5%N, Tick targetB);
          (6%N, ProbeEvent 2 Timeout 3000); (7%N, ProbeEvent 3 Timeout 3000)]
         (initialState configuredTargets)).

(** The event loop after [startHealthChecks] and a termination signal: the
    first probes of both targets are in flight. *)
Definition draining : State :=
  snd (run config_failover configuredTargets [(1%N, Listening); (2%N, Signal)]
         (initialState configuredTargets)).

(** The code units of a string of ASCII characters. *)
Definition codeUnits (text : string) : jsstring :=
  map Ascii.N_of_ascii (String.list_ascii_of_string text).

(** A header left by an upstream proxy. *)
Definition sampleHeader : jsstring := codeUnits " 203.0.113.7 , 10.0.0.1".

(** Sticky sessions and failover both off: plain round-robin. *)
Definition config_plain : Config :=
  {| stickySession := StickySession.mk false (24 * 60 * 60 * 1000);
     healthCheck := HealthCheck.mk true 5000 3000 "/health" "GET" 2 1;
     failover := Some (Failover.mk false);
     server := Server.mk 8080 "localhost" |}.

Definition twoTimeouts : list (HealthResult * N) :=
  [(probeResult Timeout 3000, 1%N); (probeResult Timeout 3000, 2%N)].

Definition twoSuccesses : list (HealthResult * N) :=
  [(probeResult (Response 200) 12, 8%N); (probeResult (Response 200) 11, 9%N)].


(** * Properties *)

(** ** Session purge *)

Lemma purge_fold_lookup (target : string) (l : list (string * string))
    (m : gmap string string) (ip : string) :
  foldr (λ entry acc, if String.eqb (snd entry) target then delete (fst entry) acc else acc)
        m l !! ip
  = if decide ((ip, target) ∈ l) then None else m !! ip.
Proof.
  induction l as [|[k v] l IH]; cbn [foldr fst snd].
  - rewrite decide_False; [done | apply not_elem_of_nil].
  - destruct (String.eqb_spec v target) as [->|Hne].
    + destruct (decide (k = ip)) as [->|Hk].
      * rewrite lookup_delete_eq. rewrite decide_True; [done | left].
      * rewrite lookup_delete_ne by done. rewrite IH.
        apply decide_ext. rewrite elem_of_cons.
        split; [by right | intros [Heq|?]; [inversion Heq; congruence | done]].
    + rewrite IH. apply decide_ext. rewrite elem_of_cons.
      split; [by right | intros [Heq|?]; [inversion Heq; congruence | done]].
Qed.

Lemma purgeSessions_lookup (target : string) (m : gmap string string) (ip : string) :
  purgeSessions target m !! ip
  = match m !! ip with
    | Some cached => if String.eqb cached target then None else Some cached
    | None => None
    end.
Proof.
  unfold purgeSessions. rewrite purge_fold_lookup.
  destruct (decide ((ip, target) ∈ map_to_list m)) as [H|H].
  - apply elem_of_map_to_list in H. rewrite H. by rewrite String.eqb_refl.
  - destruct (m !! ip) as [cached|] eqn:E; [|done].
    destruct (String.eqb_spec cached target) as [->|]; [|done].
    exfalso. apply H. by apply elem_of_map_to_list.
Qed.

(** ** Applying a probe result *)

Section ApplyResult.

Variable cfg : Config.

(** [applyResult] on a registered target never throws, rewrites only that
    target's record, and touches nothing but [targetHealth] and
    [sessionMap]. *)
Lemma applyResult_registered (target : string) (result : HealthResult) (now : N)
    (s : State) (h : Health) :
  targetHealth s !! target = Some h →
  ∃ log h',
    applyResult cfg target result now s
    = (Normal log,
       set_sessionMap (if isHealthy h && negb (isHealthy h')
                       then purgeSessions target else id)
         (set_targetHealth (insert target h') s))
    ∧ isHealthy h' = flagAfter cfg result h
    ∧ failures h' = (if res_isHealthy result then 0 else failures h + 1)
    ∧ successes h' = (if res_isHealthy result then successes h + 1 else 0)
    ∧ lastCheck h' = Some now
    ∧ latency h' = (match res_latency result with
                    | Some l => Some l
                    | None => latency h
                    end)
    ∧ transitions log
      = (if isHealthy h && negb (isHealthy h')
         then [NowUnhealthy target (errorMsg result)]
         else if negb (isHealthy h) && isHealthy h'
         then [NowHealthy target]
         else []).
Proof.
  intros Hreg. unfold applyResult, flagAfter. rewrite Hreg.
  destruct s as [th sm cur sd hi act aw mt nr].
  destruct h as [flag f sc lat lc].
  destruct (res_isHealthy result); cbn [updateLatency recordSuccess recordFailure
    isHealthy failures successes latency lastCheck setHealthy].
  - destruct flag; cbn [negb andb orb].
    + eexists _, (mkHealth true _ _ _ _). split; [reflexivity|]. cbn. by repeat split.
    + destruct (_ <=? _) eqn:Hth.
      * eexists _, (mkHealth true _ _ _ _). split; [reflexivity|]. cbn. by repeat split.
      * eexists _, (mkHealth false _ _ _ _). split; [reflexivity|]. cbn. by repeat split.
  - destruct flag; cbn [negb andb orb].
    + destruct (_ <=? _) eqn:Hth.
      * eexists _, (mkHealth false _ _ _ _). split; [reflexivity|]. cbn. by repeat split.
      * eexists _, (mkHealth true _ _ _ _). split; [reflexivity|]. cbn. by repeat split.
    + eexists _, (mkHealth false _ _ _ _). split; [reflexivity|]. cbn. by repeat split.
Qed.

End ApplyResult.

(** ** The health state machine along a sequence of probe results *)

Lemma applyResult_flipJustified (cfg : Config) (target : string) (result : HealthResult)
    (now : N) (s : State) (h : Health) :
  targetHealth s !! target = Some h →
  ∃ log s' h',
    applyResult cfg target result now s = (Normal log, s')
    ∧ targetHealth s' !! target = Some h'
    ∧ flipJustified cfg target (s, result, log, s').
Proof.
  intros Hreg.
  destruct (applyResult_registered cfg target result now s h Hreg)
    as (log & h' & Heq & Hflag & Hf & Hs & _ & _ & Htr).
  eexists log, _, h'. split; [exact Heq|].
  split; [by cbn; rewrite lookup_insert_eq|].
  unfold flipJustified, targetIsHealthy, failuresOf, successesOf.
  cbn [targetHealth set_sessionMap set_targetHealth].
  rewrite Hreg, lookup_insert_eq, Htr, Hf, Hs.
  rewrite Hflag. unfold flagAfter.
  destruct (res_isHealthy result), (isHealthy h); cbn [andb orb negb]; try done.
  - destruct (_ <=? _) eqn:Hth; [|done].
    apply Nat.leb_le in Hth. by repeat split.
  - destruct (_ <=? _) eqn:Hth; cbn [negb]; [|done].
    apply Nat.leb_le in Hth. by repeat split.
Qed.

(** C1.  Along every sequence of probe results applied to a registered
    target, every result is applied (nothing throws), and at each
    application: the flag goes from [true] to [false] only on a failed probe
    that brings [failures] to at least [unhealthyThreshold], and then exactly
    one [NowUnhealthy] line is logged; it goes from [false] to [true] only on
    a successful probe that brings [successes] to at least
    [healthyThreshold], and then exactly one [NowHealthy] line is logged; an
    application that leaves the flag as it was logs no transition at all, so
    failures that continue past the threshold add no further event. *)
Theorem health_flips_only_at_thresholds (cfg : Config) (target : string)
    (rs : list (HealthResult * N)) (s : State) (h : Health) :
  targetHealth s !! target = Some h →
  length (probeTrace cfg target rs s) = length rs
  ∧ Forall (flipJustified cfg target) (probeTrace cfg target rs s).
Proof.
  revert s h. induction rs as [|[result now] rs IH]; intros s h Hreg.
  - split; [done | constructor].
  - destruct (applyResult_flipJustified cfg target result now s h Hreg)
      as (log & s' & h' & Heq & Hreg' & Hok).
    cbn [probeTrace]. rewrite Heq.
    destruct (IH s' h' Hreg') as [Hlen Hall].
    split; [by cbn; rewrite Hlen | by constructor].
Qed.

Lemma health_flips_only_at_thresholds_witness :
  targetHealth (initialState configuredTargets) !! targetA = Some initialHealth
  ∧ length (probeTrace config_failover targetA sampleResults (initialState configuredTargets))
    = length sampleResults
  ∧ Forall (flipJustified config_failover targetA)
      (probeTrace config_failover targetA sampleResults (initialState configuredTargets)).
Proof.
  split; [reflexivity|].
  apply (health_flips_only_at_thresholds config_failover targetA sampleResults
           (initialState configuredTargets) initialHealth).
  reflexivity.
Defined.

(** The scenario of the specification: thresholds 2 and 1; two failed probes
    make a healthy target unhealthy with one event, a third adds none, and
    one successful probe makes it healthy again with [failures] back at 0. *)
Example health_scenario :
  let '(log, s) :=
    run config_failover configuredTargets
      [(1%N, Listening); (2%N, ProbeEvent 0 Timeout 3000);
       (3%N, Tick targetA); (4%N, ProbeEvent 2 (ConnError "ECONNREFUSED") 1);
       (5%N, Tick targetA); (6%N, ProbeEvent 3 Timeout 3000);
       (7%N, Tick targetA); (8%N, ProbeEvent 4 (Response 200) 20)]
      (initialState configuredTargets) in
  log = Normal [NowUnhealthy targetA (TextMsg "ECONNREFUSED");
                CheckFailed targetA 3 2 (TextMsg "Timeout");
                NowHealthy targetA]
  ∧ targetHealth s !! targetA = Some (mkHealth true 0 1 (Some 20%N) (Some 8%N))
  ∧ targetHealth s !! targetB = Some initialHealth.
Proof. vm_compute. by repeat split. Qed.

(** X14.  Consecutive failed probes: the counter grows by one each time, a
    healthy target stays healthy as long as the counter is below the
    threshold, and the whole run logs one transition event if the target went
    from healthy to unhealthy and none otherwise, however many failures
    follow. *)
Lemma consecutive_failures (cfg : Config) (target : string)
    (rs : list (HealthResult * N)) (s : State) (h : Health) :
  targetHealth s !! target = Some h →
  Forall (λ r, res_isHealthy (fst r) = false) rs →
  ∃ log s' h',
    applyResults cfg target rs s = (Normal log, s')
    ∧ targetHealth s' !! target = Some h'
    ∧ failures h' = failures h + length rs
    ∧ isHealthy h'
      = isHealthy h
        && ((length rs =? 0)
            || (failures h + length rs <? HealthCheck.unhealthyThreshold (healthCheck cfg)))
    ∧ length (transitions log) = (if isHealthy h && negb (isHealthy h') then 1 else 0).
Proof.
  revert s h. induction rs as [|[result now] rs IH]; intros s h Hreg Hall.
  - exists [], s, h. cbn. rewrite Hreg, Nat.add_0_r, andb_true_r.
    repeat split. by destruct (isHealthy h).
  - apply Forall_cons in Hall as [Hfail Hall]. cbn [fst] in Hfail.
    destruct (applyResult_registered cfg target result now s h Hreg)
      as (log1 & h1 & Heq & Hflag & Hf & _ & _ & _ & Htr).
    unfold flagAfter in Hflag. rewrite Hfail in Hflag, Hf.
    set (s1 := snd (applyResult cfg target result now s)).
    assert (Hreg1 : targetHealth s1 !! target = Some h1).
    { unfold s1. rewrite Heq. cbn. by rewrite lookup_insert_eq. }
    destruct (IH s1 h1 Hreg1 Hall) as (log' & s' & h' & Heq' & Hreg' & Hf' & Hflag' & Htr').
    exists (log1 ++ log'), s', h'.
    cbn [applyResults]. rewrite Heq. fold s1. unfold s1 in Heq'. rewrite Heq in Heq'.
    cbn [snd] in Heq'. rewrite Heq'.
    split; [done|]. split; [done|].
    split; [cbn [length]; lia|].
    unfold transitions in *. rewrite List.filter_app, length_app, Htr', Htr.
    rewrite Hflag', Hflag, Hf. cbn [length].
    destruct (isHealthy h); cbn [andb negb orb]; [|done].
    destruct (Nat.leb_spec (HealthCheck.unhealthyThreshold (healthCheck cfg))
                (failures h + 1)) as [Hle|Hgt]; cbn [andb negb orb length].
    + split; [|done]. symmetry. apply Nat.ltb_ge. lia.
    + destruct (Nat.eqb_spec (length rs) 0) as [Hz|Hnz]; cbn [orb].
      * rewrite Hz, Nat.add_0_r.
        assert ((failures h + 1 <? HealthCheck.unhealthyThreshold (healthCheck cfg)) = true)
          as -> by (apply Nat.ltb_lt; lia). done.
      * replace (failures h + 1 + length rs) with (failures h + S (length rs)) by lia.
        by destruct (_ <? _).
Qed.

(** ** Counters *)

(** C8.  Applying a probe result to a registered target resets [failures] to
    0 when the probe succeeded and [successes] to 0 when it failed, so that
    afterwards at most one of the two counters is non-zero. *)
Theorem counters_mutually_exclusive (cfg : Config) (target : string) (result : HealthResult)
    (now : N) (s : State) (h : Health) :
  targetHealth s !! target = Some h →
  ∃ log s' h',
    applyResult cfg target result now s = (Normal log, s')
    ∧ targetHealth s' !! target = Some h'
    ∧ (res_isHealthy result = true → failures h' = 0 ∧ successes h' = successes h + 1)
    ∧ (res_isHealthy result = false → successes h' = 0 ∧ failures h' = failures h + 1)
    ∧ (failures h' = 0 ∨ successes h' = 0).
Proof.
  intros Hreg.
  destruct (applyResult_registered cfg target result now s h Hreg)
    as (log & h' & Heq & _ & Hf & Hs & _).
  eexists log, _, h'. split; [exact Heq|].
  split; [by cbn; rewrite lookup_insert_eq|].
  rewrite Hf, Hs. destruct (res_isHealthy result); repeat split; auto; discriminate.
Qed.

Lemma counters_mutually_exclusive_witness :
  targetHealth (initialState configuredTargets) !! targetB = Some initialHealth
  ∧ ∃ log s' h',
      applyResult config targetB (probeResult (Response 404) 15) 77 (initialState configuredTargets)
      = (Normal log, s')
      ∧ targetHealth s' !! targetB = Some h'
      ∧ (res_isHealthy (probeResult (Response 404) 15) = true →
         failures h' = 0 ∧ successes h' = successes initialHealth + 1)
      ∧ (res_isHealthy (probeResult (Response 404) 15) = false →
         successes h' = 0 ∧ failures h' = failures initialHealth + 1)
      ∧ (failures h' = 0 ∨ successes h' = 0).
Proof.
  split; [reflexivity|].
  apply (counters_mutually_exclusive config targetB (probeResult (Response 404) 15) 77
           (initialState configuredTargets) initialHealth).
  reflexivity.
Defined.

(** ** Eager invalidation of sticky sessions *)

(** C5.  When applying a probe result takes a target from healthy to
    unhealthy, the state after that application has no [sessionMap] entry
    whose value is the target, for any client key; entries for other targets
    are kept, and the sticky lookup of [getTargetForIp] cannot return the
    target for any key. *)
Theorem unhealthy_transition_purges_sessions (cfg : Config) (target : string)
    (result : HealthResult) (now : N) (s s' : State) (c : Completion (list LogLine)) :
  targetIsHealthy s target = true →
  applyResult cfg target result now s = (c, s') →
  targetIsHealthy s' target = false →
  (∀ ip, sessionMap s' !! ip ≠ Some target)
  ∧ (∀ ip cached, cached ≠ target →
       sessionMap s' !! ip = Some cached ↔ sessionMap s !! ip = Some cached)
  ∧ (∀ ip, stickyLookup cfg ip s' ≠ inl target).
Proof.
  unfold targetIsHealthy at 1. intros Hh Happ Hdown.
  destruct (targetHealth s !! target) as [h|] eqn:Hreg; [|done].
  destruct (applyResult_registered cfg target result now s h Hreg)
    as (log & h' & Heq & _).
  rewrite Heq in Happ. injection Happ as <- <-.
  unfold targetIsHealthy in Hdown. cbn in Hdown. rewrite lookup_insert_eq in Hdown.
  rewrite Hh, Hdown. cbn [andb negb set_sessionMap set_targetHealth sessionMap].
  assert (Hnone : ∀ ip, purgeSessions target (sessionMap s) !! ip ≠ Some target).
  { intros ip. rewrite purgeSessions_lookup.
    destruct (sessionMap s !! ip) as [cached|]; [|done].
    destruct (String.eqb_spec cached target); congruence. }
  split; [exact Hnone|]. split.
  - intros ip cached Hne. rewrite purgeSessions_lookup.
    destruct (sessionMap s !! ip) as [cached'|]; [|done].
    destruct (String.eqb_spec cached' target); split; congruence.
  - intros ip. unfold stickyLookup.
    destruct (StickySession.enabled _); [|done].
    cbn [sessionMap set_sessionMap set_targetHealth].
    destruct (purgeSessions target (sessionMap s) !! ip) as [cached|] eqn:E; [|done].
    destruct (targetIsHealthy _ cached); [|done].
    intros [= ->]. by apply (Hnone ip).
Qed.

Lemma unhealthy_transition_purges_sessions_witness :
  let s := set_sessionMap (λ _, {["ip1" := targetA; "ip2" := targetB]})
             (set_targetHealth (insert targetA (mkHealth true 1 0 None None))
                (initialState configuredTargets)) in
  let r := probeResult (ConnError "ECONNRESET") 4 in
  targetIsHealthy s targetA = true
  ∧ targetIsHealthy (snd (applyResult config targetA r 9 s)) targetA = false
  ∧ (∀ ip, sessionMap (snd (applyResult config targetA r 9 s)) !! ip ≠ Some targetA)
  ∧ (∀ ip cached, cached ≠ targetA →
       sessionMap (snd (applyResult config targetA r 9 s)) !! ip = Some cached
       ↔ sessionMap s !! ip = Some cached)
  ∧ (∀ ip, stickyLookup config ip (snd (applyResult config targetA r 9 s)) ≠ inl targetA).
Proof.
  intros s r.
  split; [reflexivity|]. split; [reflexivity|].
  apply (unhealthy_transition_purges_sessions config targetA r 9 s
           (snd (applyResult config targetA r 9 s)) (fst (applyResult config targetA r 9 s))).
  - reflexivity.
  - by destruct (applyResult config targetA r 9 s).
  - reflexivity.
Defined.

Example purge_scenario :
  let s := set_sessionMap (λ _, {["ip1" := targetA; "ip2" := targetB; "ip3" := targetA]})
             (set_targetHealth (insert targetA (mkHealth true 1 0 None None))
                (initialState configuredTargets)) in
  sessionMap (snd (applyResult config targetA (probeResult Timeout 3000) 9 s))
  = {["ip2" := targetB]}.
Proof. vm_compute. reflexivity. Qed.

(** ** Who writes the health flag

    [isHealthy] is assigned in [performHealthCheck] only: selection, the
    dispatch-failure callback, starting and stopping the probes and
    [shutdown] leave every flag as it is. *)

Section Frame.

Variable cfg : Config.
Variable targets : list string.

Lemma stickyLookup_inr (ip : string) (s s1 : State) :
  stickyLookup cfg ip s = inr s1 →
  targetHealth s1 = targetHealth s ∧ current s1 = current s
  ∧ (s1 = s ∨ s1 = set_sessionMap (delete ip) s).
Proof.
  unfold stickyLookup. intros H.
  destruct (StickySession.enabled _); [|injection H as <-; auto].
  destruct (sessionMap s !! ip) as [cached|]; [|injection H as <-; auto].
  destruct (targetIsHealthy s cached); [done|].
  injection H as <-. auto.
Qed.

Lemma remember_frame (ip target : string) (s : State) :
  targetHealth (remember cfg ip target s) = targetHealth s
  ∧ current (remember cfg ip target s) = current s.
Proof. unfold remember. by destruct (StickySession.enabled _). Qed.

Lemma roundRobin_targetHealth (ip : string) (s : State) :
  targetHealth (snd (roundRobin cfg targets ip s)) = targetHealth s.
Proof.
  unfold roundRobin. destruct (_ =? 0); [done|].
  destruct (_ !! _); [|done]. by destruct (StickySession.enabled _).
Qed.

Lemma getTargetForIp_targetHealth (ip : string) (s : State) :
  targetHealth (snd (getTargetForIp cfg targets ip s)) = targetHealth s.
Proof.
  unfold getTargetForIp.
  destruct (stickyLookup cfg ip s) as [cached|s1] eqn:Hs; [done|].
  apply stickyLookup_inr in Hs as (Hth & _ & _).
  destruct (failover cfg) as [fo|]; [|done].
  pose proof (roundRobin_targetHealth ip s1) as Hrr.
  pose proof (λ t, proj1 (remember_frame ip t s1)) as Hrem.
  destruct (Failover.enabled fo && _); [|congruence].
  destruct (targets !! 0) as [service1|]; [|congruence].
  destruct (targets !! 1) as [service2|]; [|congruence].
  destruct (targetIsHealthy s1 service1); [cbn; by rewrite Hrem|].
  destruct (targetIsDown s1 service1 && _); [cbn; by rewrite Hrem | congruence].
Qed.

Lemma requestHandler_targetHealth (ip : string) (s : State) :
  targetHealth (snd (requestHandler cfg targets ip s)) = targetHealth s.
Proof.
  unfold requestHandler.
  pose proof (getTargetForIp_targetHealth ip s) as H.
  destruct (getTargetForIp cfg targets ip s) as [[[target|]|e] s1]; cbn in *; try done.
  by destruct (String.eqb target "").
Qed.

Lemma checkTargetHealth_frame (target : string) (s : State) :
  targetHealth (checkTargetHealth target s) = targetHealth s
  ∧ sessionMap (checkTargetHealth target s) = sessionMap s
  ∧ current (checkTargetHealth target s) = current s
  ∧ isShuttingDown (checkTargetHealth target s) = isShuttingDown s.
Proof. unfold checkTargetHealth. by destruct (isShuttingDown s) eqn:E. Qed.

Lemma startHealthChecks_targetHealth (s : State) :
  targetHealth (startHealthChecks cfg targets s) = targetHealth s.
Proof.
  unfold startHealthChecks. destruct (HealthCheck.enabled _); [|done].
  revert s. induction targets as [|t ts IH]; intros s; [done|].
  cbn [foldl]. rewrite IH. cbn. apply checkTargetHealth_frame.
Qed.

Lemma shutdown_targetHealth (s : State) :
  targetHealth (shutdown s) = targetHealth s.
Proof. unfold shutdown. by destruct (isShuttingDown s). Qed.

Lemma flags_onProxyError (target : string) (s : State) :
  flags (onProxyError target s) = flags s.
Proof.
  unfold onProxyError, flags, performHealthCheck.
  destruct (targetHealth s !! target) as [h|] eqn:Hreg; [|done].
  rewrite (proj1 (checkTargetHealth_frame _ _)). cbn.
  rewrite fmap_insert. apply insert_id. by rewrite lookup_fmap, Hreg.
Qed.

(** Every operation other than applying a probe result keeps the flags. *)
Lemma flags_written_by_applyResult_only (ip target : string) (s : State) :
  flags (snd (getTargetForIp cfg targets ip s)) = flags s
  ∧ flags (snd (requestHandler cfg targets ip s)) = flags s
  ∧ flags (onProxyError target s) = flags s
  ∧ flags (performHealthCheck target s) = flags s
  ∧ flags (startHealthChecks cfg targets s) = flags s
  ∧ flags (stopHealthChecks s) = flags s
  ∧ flags (shutdown s) = flags s.
Proof.
  unfold flags.
  rewrite getTargetForIp_targetHealth, requestHandler_targetHealth,
    startHealthChecks_targetHealth, shutdown_targetHealth.
  unfold performHealthCheck. rewrite (proj1 (checkTargetHealth_frame _ _)).
  repeat split; try done. apply flags_onProxyError.
Qed.

End Frame.

(** ** The dispatch-failure fast path *)

(** C9.  The proxy error callback, for a registered target, adds exactly one
    to that target's [failures] and starts a probe (a request in flight, or,
    during shutdown, a promise already resolved), and writes nothing else:
    [successes], the latency fields and the flag of the target, the records
    of all other targets, [sessionMap] and the cursor are as before.  The
    flag is written by no operation but the application of a probe result.
    When [successes] was non-zero, both counters are non-zero afterwards. *)
Theorem dispatch_failure_only_counts (cfg : Config) (targets : list string)
    (target : string) (s : State) (h : Health) :
  targetHealth s !! target = Some h →
  targetHealth (onProxyError target s)
  = <[target := mkHealth (isHealthy h) (failures h + 1) (successes h)
                  (latency h) (lastCheck h)]> (targetHealth s)
  ∧ sessionMap (onProxyError target s) = sessionMap s
  ∧ current (onProxyError target s) = current s
  ∧ (if isShuttingDown s
     then microtasks (onProxyError target s) = microtasks s ++ [(target, shuttingDownResult)]
          ∧ awaiting (onProxyError target s) = awaiting s
     else awaiting (onProxyError target s) = <[nextReq s := target]> (awaiting s)
          ∧ nextReq s ∈ activeHealthCheckRequests (onProxyError target s)
          ∧ microtasks (onProxyError target s) = microtasks s)
  ∧ (∀ ip other,
       flags (snd (getTargetForIp cfg targets ip s)) = flags s
       ∧ flags (onProxyError other s) = flags s
       ∧ flags (performHealthCheck other s) = flags s
       ∧ flags (startHealthChecks cfg targets s) = flags s
       ∧ flags (shutdown s) = flags s)
  ∧ (0 < successes h →
       0 < failuresOf (onProxyError target s) target
       ∧ 0 < successesOf (onProxyError target s) target).
Proof.
  intros Hreg.
  assert (Hth : targetHealth (onProxyError target s)
    = <[target := mkHealth (isHealthy h) (failures h + 1) (successes h)
                    (latency h) (lastCheck h)]> (targetHealth s)).
  { unfold onProxyError, performHealthCheck. rewrite Hreg.
    by rewrite (proj1 (checkTargetHealth_frame _ _)). }
  split; [exact Hth|].
  unfold failuresOf, successesOf. rewrite Hth, lookup_insert_eq. clear Hth.
  unfold onProxyError, performHealthCheck, checkTargetHealth. rewrite Hreg.
  cbn [isShuttingDown set_targetHealth].
  split; [by destruct (isShuttingDown s)|].
  split; [by destruct (isShuttingDown s)|].
  split.
  { destruct (isShuttingDown s); cbn; [done|].
    split; [done|]. split; [|done]. by apply elem_of_union_l, elem_of_singleton. }
  split.
  { intros ip other.
    pose proof (flags_written_by_applyResult_only cfg targets ip other s)
      as (H1 & _ & H3 & H4 & H5 & _ & H7).
    by repeat split. }
  intros Hpos. cbn. lia.
Qed.

Lemma dispatch_failure_only_counts_witness :
  targetHealth afterOneSuccess !! targetA = Some (mkHealth true 0 1 (Some 12%N) (Some 2%N))
  ∧ targetHealth (onProxyError targetA afterOneSuccess) !! targetA
    = Some (mkHealth true 1 1 (Some 12%N) (Some 2%N))
  ∧ 0 < failuresOf (onProxyError targetA afterOneSuccess) targetA
  ∧ 0 < successesOf (onProxyError targetA afterOneSuccess) targetA.
Proof.
  split; [reflexivity|].
  destruct (dispatch_failure_only_counts config_failover configuredTargets targetA afterOneSuccess
              (mkHealth true 0 1 (Some 12%N) (Some 2%N)) eq_refl)
    as (Hth & _ & _ & _ & _ & Hboth).
  split; [by rewrite Hth, lookup_insert_eq|].
  apply Hboth. cbn. lia.
Defined.

(** ** Selection *)

Section Selection.

Variable cfg : Config.
Variable targets : list string.

Lemma roundRobin_index_in_range (s : State) :
  length (getHealthyTargets targets s) ≠ 0 →
  is_Some (getHealthyTargets targets s
             !! (current s mod length (getHealthyTargets targets s))).
Proof. intros H. apply lookup_lt_is_Some. by apply Nat.mod_upper_bound. Qed.

Lemma affinity_hit_once (ip cached : string) (s : State) :
  StickySession.enabled (stickySession cfg) = true →
  sessionMap s !! ip = Some cached →
  targetIsHealthy s cached = true →
  getTargetForIp cfg targets ip s = (Normal (Some cached), s).
Proof.
  intros Hen Hc Hh. unfold getTargetForIp, stickyLookup. by rewrite Hen, Hc, Hh.
Qed.

(** C6.  With sticky sessions enabled and an entry for [ip] whose target
    is healthy, [getTargetForIp(ip)] returns that target and leaves the
    whole state, the round-robin cursor included, as it was; hence any
    number of successive calls return it.  Once the target is not healthy
    any more the entry is not served: the call does not return through the
    sticky branch. *)
Theorem affinity_hit_returns_cached (ip cached : string) (s : State) (n : nat) :
  StickySession.enabled (stickySession cfg) = true →
  sessionMap s !! ip = Some cached →
  (targetIsHealthy s cached = true →
     getTargetForIp cfg targets ip s = (Normal (Some cached), s)
     ∧ current (snd (getTargetForIp cfg targets ip s)) = current s
     ∧ selectRepeatedly cfg targets ip n s = (replicate n (Normal (Some cached)), s))
  ∧ (targetIsHealthy s cached = false →
       stickyLookup cfg ip s = inr (set_sessionMap (delete ip) s)).
Proof.
  intros Hen Hc. split.
  - intros Hh.
    pose proof (affinity_hit_once ip cached s Hen Hc Hh) as Hhit.
    split; [exact Hhit|]. split; [by rewrite Hhit|].
    induction n as [|n IH]; [done|].
    cbn [selectRepeatedly replicate]. by rewrite Hhit, IH.
  - intros Hh. unfold stickyLookup. by rewrite Hen, Hc, Hh.
Qed.

End Selection.

Lemma affinity_hit_returns_cached_witness :
  getTargetForIp config_sticky configuredTargets "ip1" (initialState configuredTargets)
  = (Normal (Some targetA), afterFirstSelect)
  ∧ sessionMap afterFirstSelect !! "ip1" = Some targetA
  ∧ targetIsHealthy afterFirstSelect targetA = true
  ∧ current afterFirstSelect = 1
  ∧ getTargetForIp config_sticky configuredTargets "ip1" afterFirstSelect
    = (Normal (Some targetA), afterFirstSelect)
  ∧ selectRepeatedly config_sticky configuredTargets "ip1" 3 afterFirstSelect
    = ([Normal (Some targetA); Normal (Some targetA); Normal (Some targetA)], afterFirstSelect).
Proof.
  destruct (affinity_hit_returns_cached config_sticky configuredTargets "ip1" targetA
              afterFirstSelect 3 eq_refl eq_refl) as [Hhit _].
  destruct (Hhit eq_refl) as (Hone & _ & Hrep).
  split; [reflexivity|]. split; [reflexivity|]. split; [reflexivity|].
  split; [reflexivity|]. split; [exact Hone | exact Hrep].
Defined.

(** ** Failover precedence *)

Section FailoverMode.

Variable cfg : Config.
Variable targets : list string.

(** The newest revision: service 1 when healthy, else service 2 when
    service 1 is down and service 2 healthy, else round-robin. *)
Lemma failover_newest (ip : string) (s s1 : State) (fo : Failover.t)
    (service1 service2 : string) :
  failover cfg = Some fo → Failover.enabled fo = true →
  targets !! 0 = Some service1 → targets !! 1 = Some service2 →
  stickyLookup cfg ip s = inr s1 →
  getTargetForIp cfg targets ip s
  = if targetIsHealthy s service1 then (Normal (Some service1), remember cfg ip service1 s1)
    else if targetIsDown s service1 && targetIsHealthy s service2
    then (Normal (Some service2), remember cfg ip service2 s1)
    else roundRobin cfg targets ip s1.
Proof.
  intros Hfo Hen H0 H1 Hs.
  unfold getTargetForIp. rewrite Hs, Hfo, Hen, H0, H1.
  apply stickyLookup_inr in Hs as (Hth & _ & _).
  unfold targetIsHealthy, targetIsDown. rewrite Hth.
  assert (2 ≤ length targets) as Hlen.
  { apply lookup_lt_Some in H1. lia. }
  apply Nat.leb_le in Hlen. by rewrite Hlen.
Qed.

(** The revision before it: service 2 when service 1 is down and service 2
    healthy, else round-robin, also when service 1 is healthy. *)
Lemma failover_rev2 (ip : string) (s s1 : State) (fo : Failover.t)
    (service1 service2 : string) :
  failover cfg = Some fo → Failover.enabled fo = true →
  targets !! 0 = Some service1 → targets !! 1 = Some service2 →
  stickyLookup cfg ip s = inr s1 →
  Rev2.getTargetForIp cfg targets ip s
  = if targetIsDown s service1 && targetIsHealthy s service2
    then (Normal (Some service2), remember cfg ip service2 s1)
    else roundRobin cfg targets ip s1.
Proof.
  intros Hfo Hen H0 H1 Hs.
  unfold Rev2.getTargetForIp. rewrite Hs, Hfo, Hen, H0, H1.
  apply stickyLookup_inr in Hs as (Hth & _ & _).
  unfold targetIsHealthy, targetIsDown. rewrite Hth.
  assert (2 ≤ length targets) as Hlen.
  { apply lookup_lt_Some in H1. lia. }
  apply Nat.leb_le in Hlen. by rewrite Hlen.
Qed.

End FailoverMode.

(** C2, as amended.  Failover enabled, at least two targets, no sticky hit
    for the client ([stickyLookup] goes on in state [s1]).  In both
    revisions that have a failover mode, if service 1 is down and service 2
    is healthy the call returns service 2 and does not move the cursor,
    whatever the cursor is, and in the remaining cases it is the round-robin
    selection.  If service 1 is healthy, the newest revision returns
    service 1 without moving the cursor, while the revision before it goes to
    round-robin. *)
Theorem failover_precedence (cfg : Config) (targets : list string) (ip : string)
    (s s1 : State) (fo : Failover.t) (service1 service2 : string) :
  failover cfg = Some fo → Failover.enabled fo = true →
  targets !! 0 = Some service1 → targets !! 1 = Some service2 →
  stickyLookup cfg ip s = inr s1 →
  (targetIsHealthy s service1 = true →
     getTargetForIp cfg targets ip s = (Normal (Some service1), remember cfg ip service1 s1)
     ∧ current (remember cfg ip service1 s1) = current s
     ∧ Rev2.getTargetForIp cfg targets ip s = roundRobin cfg targets ip s1)
  ∧ (targetIsDown s service1 = true → targetIsHealthy s service2 = true →
       getTargetForIp cfg targets ip s = (Normal (Some service2), remember cfg ip service2 s1)
       ∧ Rev2.getTargetForIp cfg targets ip s
         = (Normal (Some service2), remember cfg ip service2 s1)
       ∧ current (remember cfg ip service2 s1) = current s)
  ∧ (targetIsHealthy s service1 = false →
       targetIsDown s service1 && targetIsHealthy s service2 = false →
       getTargetForIp cfg targets ip s = roundRobin cfg targets ip s1
       ∧ Rev2.getTargetForIp cfg targets ip s = roundRobin cfg targets ip s1).
Proof.
  intros Hfo Hen H0 H1 Hs.
  pose proof (failover_newest cfg targets ip s s1 fo service1 service2 Hfo Hen H0 H1 Hs)
    as Hnew.
  pose proof (failover_rev2 cfg targets ip s s1 fo service1 service2 Hfo Hen H0 H1 Hs)
    as Hold.
  pose proof (stickyLookup_inr cfg ip s s1 Hs) as (_ & Hcur & _).
  rewrite Hnew, Hold. clear Hnew Hold.
  split; [|split].
  - intros Hh. rewrite Hh.
    assert (targetIsDown s service1 = false) as ->.
    { unfold targetIsHealthy in Hh. unfold targetIsDown.
      destruct (targetHealth s !! service1); [by rewrite Hh | done]. }
    cbn [andb]. split; [done|]. split; [|done].
    rewrite (proj2 (remember_frame cfg ip service1 s1)). exact Hcur.
  - intros Hd Hh2. rewrite Hd, Hh2. cbn [andb].
    assert (targetIsHealthy s service1 = false) as ->.
    { unfold targetIsDown in Hd. unfold targetIsHealthy.
      destruct (targetHealth s !! service1); [|done].
      by destruct (isHealthy _). }
    split; [done|]. split; [done|].
    rewrite (proj2 (remember_frame cfg ip service2 s1)). exact Hcur.
  - intros Hh Hno. by rewrite Hh, Hno.
Qed.

Lemma failover_precedence_witness :
  stickyLookup config_failover "ip2" serviceOneDown = inr serviceOneDown
  ∧ targetIsDown serviceOneDown targetA = true
  ∧ targetIsHealthy serviceOneDown targetB = true
  ∧ current serviceOneDown = 1
  ∧ getTargetForIp config_failover configuredTargets "ip2" serviceOneDown
    = (Normal (Some targetB), serviceOneDown)
  ∧ Rev2.getTargetForIp config_failover configuredTargets "ip2" serviceOneDown
    = (Normal (Some targetB), serviceOneDown).
Proof.
  destruct (failover_precedence config_failover configuredTargets "ip2" serviceOneDown
              serviceOneDown (Failover.mk true) targetA targetB
              eq_refl eq_refl eq_refl eq_refl eq_refl) as (_ & Hdown & _).
  destruct (Hdown eq_refl eq_refl) as (Hnew & Hold & _).
  split; [reflexivity|]. split; [reflexivity|]. split; [reflexivity|].
  split; [reflexivity|]. split; [exact Hnew | exact Hold].
Defined.

(** C2 as stated fails on the older failover revision: service 1 is healthy,
    there is no sticky hit, failover is enabled with two targets, and the
    call returns service 2, the round-robin slot of the cursor. *)
Lemma failover_precedence_counterexample :
  failover config_failover = Some (Failover.mk true)
  ∧ stickyLookup config_failover "ip2" afterOneRequestRev2 = inr afterOneRequestRev2
  ∧ targetIsHealthy afterOneRequestRev2 targetA = true
  ∧ current afterOneRequestRev2 = 1
  ∧ fst (Rev2.getTargetForIp config_failover configuredTargets "ip2" afterOneRequestRev2)
    = Normal (Some targetB)
  ∧ ¬ (∀ cfg targets ip s s1 fo service1 service2,
         failover cfg = Some fo → Failover.enabled fo = true →
         targets !! 0 = Some service1 → targets !! 1 = Some service2 →
         stickyLookup cfg ip s = inr s1 →
         targetIsHealthy s service1 = true →
         fst (Rev2.getTargetForIp cfg targets ip s) = Normal (Some service1)).
Proof.
  do 5 (split; [reflexivity|]).
  intros H.
  specialize (H config_failover configuredTargets "ip2" afterOneRequestRev2 afterOneRequestRev2
                (Failover.mk true) targetA targetB eq_refl eq_refl eq_refl eq_refl eq_refl eq_refl).
  vm_compute in H. discriminate H.
Qed.

(** ** The registry holds the configured targets

    [targetHealth] is filled once, from [targets]; no callback adds or
    removes a key. *)

Section Registry.

Variable cfg : Config.
Variable targets : list string.

Lemma initialState_registry :
  dom (targetHealth (initialState targets)) = list_to_set targets.
Proof.
  unfold initialState. cbn [targetHealth].
  assert (H : ∀ (l : list string) (m : gmap string Health),
             dom (foldl (λ m target, <[target := initialHealth]> m) m l)
             = list_to_set l ∪ dom m).
  { induction l as [|t l IH]; intros m; cbn [foldl list_to_set].
    - by rewrite union_empty_l_L.
    - rewrite IH, dom_insert_L, (assoc_L (∪)). f_equal. apply (comm_L (∪)). }
  rewrite H, dom_empty_L. by rewrite union_empty_r_L.
Qed.

Lemma applyResult_registry (target : string) (result : HealthResult) (now : N) (s : State) :
  dom (targetHealth (snd (applyResult cfg target result now s))) = dom (targetHealth s).
Proof.
  destruct (targetHealth s !! target) as [h|] eqn:Hreg.
  - destruct (applyResult_registered cfg target result now s h Hreg) as (log & h' & Heq & _).
    rewrite Heq. cbn. rewrite dom_insert_L.
    apply subseteq_union_1_L, singleton_subseteq_l, elem_of_dom. by eexists.
  - unfold applyResult. by rewrite Hreg.
Qed.

Lemma runMicrotasks_registry (q : list (string * HealthResult)) (now : N) (s : State) :
  dom (targetHealth (snd (runMicrotasks cfg q now s))) = dom (targetHealth s).
Proof.
  revert s. induction q as [|[target result] q IH]; intros s; [done|].
  cbn [runMicrotasks].
  pose proof (applyResult_registry target result now s) as H1.
  destruct (applyResult cfg target result now s) as [[l|e] s1]; [|done].
  specialize (IH s1).
  destruct (runMicrotasks cfg q now s1) as [[l'|e] s2]; cbn in *; congruence.
Qed.

Lemma step_registry (now : N) (e : Event) (s : State) :
  dom (targetHealth (snd (step cfg targets now e s))) = dom (targetHealth s).
Proof.
  destruct e as [|ip|target|target|req o lat| |]; cbn [step].
  - unfold drain. rewrite runMicrotasks_registry. cbn.
    by rewrite startHealthChecks_targetHealth.
  - pose proof (requestHandler_targetHealth cfg targets ip s) as H.
    destruct (requestHandler cfg targets ip s) as [[r|err] s1]; cbn in *; by rewrite H.
  - unfold drain. rewrite runMicrotasks_registry. cbn.
    unfold onProxyError, performHealthCheck.
    destruct (targetHealth s !! target) as [h|] eqn:Hreg; [|done].
    rewrite (proj1 (checkTargetHealth_frame _ _)). cbn. rewrite dom_insert_L.
    apply subseteq_union_1_L, singleton_subseteq_l, elem_of_dom. by eexists.
  - destruct (decide _); [|done].
    unfold drain. rewrite runMicrotasks_registry. cbn. unfold performHealthCheck.
    by rewrite (proj1 (checkTargetHealth_frame _ _)).
  - destruct (awaiting s !! req); [|done]. by rewrite applyResult_registry.
  - by destruct (StickySession.enabled _).
  - cbn. by rewrite shutdown_targetHealth.
Qed.

(** In every state the event loop reaches, the registry has exactly the
    configured targets as keys. *)
Lemma run_registry (es : list (N * Event)) (s : State) :
  dom (targetHealth (snd (run cfg targets es s))) = dom (targetHealth s).
Proof.
  revert s. induction es as [|[now e] es IH]; intros s; [done|].
  cbn [run].
  pose proof (step_registry now e s) as H1.
  destruct (step cfg targets now e s) as [[l|err] s1]; [|done].
  specialize (IH s1).
  destruct (run cfg targets es s1) as [[l'|err] s2]; cbn in *; congruence.
Qed.

(** X15.  In every state the event loop reaches from the initial one, the
    targets that have a record in [targetHealth] are exactly the elements of
    [targets]: no callback adds or removes a record. *)
Lemma reachable_registry (es : list (N * Event)) (t : string) :
  is_Some (targetHealth (snd (run cfg targets es (initialState targets))) !! t)
  ↔ t ∈ targets.
Proof.
  rewrite <- elem_of_dom, run_registry, initialState_registry.
  apply elem_of_list_to_set.
Qed.

End Registry.

(** ** No healthy target *)





(** ** The configuration without a failover section *)

Section NoFailover.

Variable cfg : Config.
Variable targets : list string.
Hypothesis no_failover : failover cfg = None.

Lemma missing_failover_throws (ip : string) (s s1 : State) :
  stickyLookup cfg ip s = inr s1 →
  getTargetForIp cfg targets ip s = (Throw TypeError, s1).
Proof. intros Hs. unfold getTargetForIp. by rewrite Hs, no_failover. Qed.

Lemma missing_failover_never_selects (ip : string) (s : State) :
  (∃ cached, sessionMap s !! ip = Some cached
             ∧ getTargetForIp cfg targets ip s = (Normal (Some cached), s))
  ∨ fst (getTargetForIp cfg targets ip s) = Throw TypeError.
Proof.
  destruct (stickyLookup cfg ip s) as [cached|s1] eqn:Hs.
  - left. exists cached. unfold getTargetForIp. rewrite Hs.
    unfold stickyLookup in Hs.
    destruct (StickySession.enabled _); [|done].
    destruct (sessionMap s !! ip) as [c|]; [|done].
    destruct (targetIsHealthy s c); [|done]. by injection Hs as ->.
  - right. by rewrite (missing_failover_throws ip s s1 Hs).
Qed.

Lemma empty_sessions_throw (ip : string) (s : State) :
  sessionMap s = ∅ →
  getTargetForIp cfg targets ip s = (Throw TypeError, s).
Proof.
  intros He. apply missing_failover_throws. unfold stickyLookup.
  rewrite He, lookup_empty. by destruct (StickySession.enabled _).
Qed.

Lemma applyResult_sessions_empty (target : string) (result : HealthResult) (now : N)
    (s : State) :
  sessionMap s = ∅ → sessionMap (snd (applyResult cfg target result now s)) = ∅.
Proof.
  intros He. unfold applyResult.
  destruct (targetHealth s !! target) as [h|] eqn:Hreg; [|done].
  destruct (applyResult_registered cfg target result now s h Hreg) as (log & h' & Heq & _).
  unfold applyResult in Heq. rewrite Hreg in Heq. rewrite Heq. cbn.
  destruct (isHealthy h && negb (isHealthy h')); [|done].
  rewrite He. unfold purgeSessions. by rewrite map_to_list_empty.
Qed.

Lemma runMicrotasks_sessions_empty (q : list (string * HealthResult)) (now : N) (s : State) :
  sessionMap s = ∅ → sessionMap (snd (runMicrotasks cfg q now s)) = ∅.
Proof.
  revert s. induction q as [|[target result] q IH]; intros s He; [done|].
  cbn [runMicrotasks].
  pose proof (applyResult_sessions_empty target result now s He) as H1.
  destruct (applyResult cfg target result now s) as [[l|e] s1]; [|done].
  specialize (IH s1 H1).
  by destruct (runMicrotasks cfg q now s1) as [[l'|e] s2].
Qed.

Lemma startHealthChecks_sessions (s : State) :
  sessionMap (startHealthChecks cfg targets s) = sessionMap s.
Proof.
  unfold startHealthChecks. destruct (HealthCheck.enabled _); [|done].
  revert s. induction targets as [|t ts IH]; intros s; [done|].
  cbn [foldl]. rewrite IH. cbn. apply checkTargetHealth_frame.
Qed.

Lemma step_sessions_empty (now : N) (e : Event) (s : State) :
  sessionMap s = ∅ → sessionMap (snd (step cfg targets now e s)) = ∅.
Proof.
  intros He. destruct e as [|ip|target|target|req o lat| |]; cbn [step].
  - apply runMicrotasks_sessions_empty. cbn. by rewrite startHealthChecks_sessions.
  - unfold requestHandler. by rewrite (empty_sessions_throw ip s He).
  - apply runMicrotasks_sessions_empty. cbn. unfold onProxyError, performHealthCheck.
    destruct (targetHealth s !! target); [|done].
    by rewrite (proj1 (proj2 (checkTargetHealth_frame _ _))).
  - destruct (decide _); [|done].
    apply runMicrotasks_sessions_empty. cbn. unfold performHealthCheck.
    by rewrite (proj1 (proj2 (checkTargetHealth_frame _ _))).
  - destruct (awaiting s !! req); [|done]. by apply applyResult_sessions_empty.
  - by destruct (StickySession.enabled _).
  - unfold shutdown. by destruct (isShuttingDown s).
Qed.

Lemma run_sessions_empty (es : list (N * Event)) (s : State) :
  sessionMap s = ∅ → sessionMap (snd (run cfg targets es s)) = ∅.
Proof.
  revert s. induction es as [|[now e] es IH]; intros s He; [done|].
  cbn [run].
  pose proof (step_sessions_empty now e s He) as H1.
  destruct (step cfg targets now e s) as [[l|err] s1]; [|done].
  specialize (IH s1 H1).
  by destruct (run cfg targets es s1) as [[l'|err] s2].
Qed.

End NoFailover.

(** C10.  Under the configuration of [src/config.js], which has no
    [failover] section, [getTargetForIp] of the revisions that read
    [config.failover.enabled] never gets to the round-robin selection: in
    any state it either returns through the sticky branch or throws a
    [TypeError]; and in every state the event loop reaches from the initial
    one the session table is empty, so the call throws for every client, and
    so does the request handler. *)
Theorem config_without_failover_throws (targets : list string) (es : list (N * Event))
    (ip : string) (s : State) :
  failover config = None
  ∧ ((∃ cached, sessionMap s !! ip = Some cached
                ∧ getTargetForIp config targets ip s = (Normal (Some cached), s))
     ∨ fst (getTargetForIp config targets ip s) = Throw TypeError)
  ∧ (let r := snd (run config targets es (initialState targets)) in
     getTargetForIp config targets ip r = (Throw TypeError, r)
     ∧ Rev2.getTargetForIp config targets ip r = (Throw TypeError, r)
     ∧ requestHandler config targets ip r = (Throw TypeError, r)).
Proof.
  split; [done|].
  split; [by apply missing_failover_never_selects|].
  intros r.
  assert (sessionMap r = ∅) as He by (by apply run_sessions_empty).
  pose proof (empty_sessions_throw config targets eq_refl ip r He) as Hget.
  split; [exact Hget|]. split.
  - unfold Rev2.getTargetForIp, stickyLookup. by rewrite He, lookup_empty.
  - unfold requestHandler. by rewrite Hget.
Qed.

Example config_without_failover_first_request :
  fst (getTargetForIp config configuredTargets "ip1" (initialState configuredTargets)) = Throw TypeError
  ∧ fst (getTargetForIp config_failover configuredTargets "ip1" (initialState configuredTargets))
    = Normal (Some targetA)
  ∧ fst (Rev3.getTargetForIp config configuredTargets "ip1" (initialState configuredTargets))
    = Normal (Some targetA).
Proof. vm_compute. by repeat split. Qed.

(** ** Sticky entries reference healthy targets

    An entry is recorded only for a target found healthy, and the entries of
    a target are purged in the step that makes it unhealthy; so the property
    holds in every state the event loop reaches. *)

Section SessionsHealthy.

Variable cfg : Config.
Variable targets : list string.

Lemma applyResult_sessionsHealthy (target : string) (result : HealthResult) (now : N)
    (s : State) :
  sessionsHealthy s → sessionsHealthy (snd (applyResult cfg target result now s)).
Proof.
  intros Hinv.
  destruct (targetHealth s !! target) as [h|] eqn:Hreg;
    [|unfold applyResult; by rewrite Hreg].
  destruct (applyResult_registered cfg target result now s h Hreg) as (log & h' & Heq & _).
  rewrite Heq. cbn [snd]. intros ip t.
  unfold targetIsHealthy. cbn [sessionMap targetHealth set_sessionMap set_targetHealth].
  destruct (isHealthy h && negb (isHealthy h')) eqn:Hflip.
  - rewrite purgeSessions_lookup.
    destruct (sessionMap s !! ip) as [cached|] eqn:Hc; [|done].
    destruct (String.eqb_spec cached target) as [->|Hne]; [done|].
    intros [= <-]. rewrite lookup_insert_ne by done. by apply (Hinv ip).
  - intros Hc. specialize (Hinv ip t Hc). unfold targetIsHealthy in Hinv.
    destruct (decide (t = target)) as [->|Hne].
    + rewrite lookup_insert_eq. rewrite Hreg in Hinv. rewrite Hinv in Hflip.
      by destruct (isHealthy h').
    + by rewrite lookup_insert_ne.
Qed.

Lemma remember_sessionsHealthy (ip target : string) (s : State) :
  sessionsHealthy s → targetIsHealthy s target = true →
  sessionsHealthy (remember cfg ip target s).
Proof.
  intros Hinv Hh. unfold remember. destruct (StickySession.enabled _); [|done].
  intros ip' t. unfold targetIsHealthy. cbn.
  destruct (decide (ip = ip')) as [->|Hne].
  - rewrite lookup_insert_eq. by intros [= <-].
  - rewrite lookup_insert_ne by done. apply Hinv.
Qed.

Lemma roundRobin_sessionsHealthy (ip : string) (s : State) :
  sessionsHealthy s → sessionsHealthy (snd (roundRobin cfg targets ip s)).
Proof.
  intros Hinv. unfold roundRobin.
  destruct (_ =? 0); [done|].
  destruct (getHealthyTargets targets s !! _) as [target|] eqn:Hl; [|done].
  assert (targetIsHealthy s target = true) as Hh.
  { apply list_elem_of_lookup_2 in Hl. apply list_elem_of_In in Hl.
    unfold getHealthyTargets in Hl. by apply List.filter_In in Hl as [_ Hl]. }
  destruct (StickySession.enabled _); [|done].
  cbn [snd]. intros ip' t. unfold targetIsHealthy. cbn.
  destruct (decide (ip = ip')) as [->|Hne].
  - rewrite lookup_insert_eq. by intros [= <-].
  - rewrite lookup_insert_ne by done. apply Hinv.
Qed.

Lemma getTargetForIp_sessionsHealthy (ip : string) (s : State) :
  sessionsHealthy s → sessionsHealthy (snd (getTargetForIp cfg targets ip s)).
Proof.
  intros Hinv. unfold getTargetForIp.
  destruct (stickyLookup cfg ip s) as [cached|s1] eqn:Hs; [done|].
  assert (sessionsHealthy s1) as Hinv1.
  { apply stickyLookup_inr in Hs as (Hth & _ & [->| ->]); [done|].
    intros ip' t. unfold targetIsHealthy. cbn.
    destruct (decide (ip = ip')) as [->|Hne].
    - by rewrite lookup_delete_eq.
    - rewrite lookup_delete_ne by done. apply Hinv. }
  destruct (failover cfg) as [fo|]; [|done].
  pose proof (roundRobin_sessionsHealthy ip s1 Hinv1) as Hrr.
  destruct (Failover.enabled fo && _); [|done].
  destruct (targets !! 0) as [service1|]; [|done].
  destruct (targets !! 1) as [service2|]; [|done].
  destruct (targetIsHealthy s1 service1) eqn:H1; [by apply remember_sessionsHealthy|].
  destruct (targetIsDown s1 service1); cbn [andb]; [|done].
  destruct (targetIsHealthy s1 service2) eqn:H2; [by apply remember_sessionsHealthy|done].
Qed.

Lemma runMicrotasks_sessionsHealthy (q : list (string * HealthResult)) (now : N)
    (s : State) :
  sessionsHealthy s → sessionsHealthy (snd (runMicrotasks cfg q now s)).
Proof.
  revert s. induction q as [|[target result] q IH]; intros s Hinv; [done|].
  cbn [runMicrotasks].
  pose proof (applyResult_sessionsHealthy target result now s Hinv) as H1.
  destruct (applyResult cfg target result now s) as [[l|e] s1]; [|done].
  specialize (IH s1 H1).
  by destruct (runMicrotasks cfg q now s1) as [[l'|e] s2].
Qed.

Lemma sessionsHealthy_same (s s' : State) :
  sessionMap s' = sessionMap s → flags s' = flags s →
  sessionsHealthy s → sessionsHealthy s'.
Proof.
  intros Hsm Hfl Hinv ip t Hc. rewrite Hsm in Hc. specialize (Hinv ip t Hc).
  unfold targetIsHealthy in *.
  assert (flags s' !! t = flags s !! t) as Ht by by rewrite Hfl.
  unfold flags in Ht. rewrite !lookup_fmap in Ht.
  destruct (targetHealth s !! t), (targetHealth s' !! t); cbn in Ht; congruence.
Qed.

Lemma step_sessionsHealthy (now : N) (e : Event) (s : State) :
  sessionsHealthy s → sessionsHealthy (snd (step cfg targets now e s)).
Proof.
  intros Hinv. destruct e as [|ip|target|target|req o lat| |]; cbn [step].
  - apply runMicrotasks_sessionsHealthy.
    apply (sessionsHealthy_same s); [| |done]; cbn.
    + apply startHealthChecks_sessions.
    + unfold flags; cbn. by rewrite startHealthChecks_targetHealth.
  - pose proof (getTargetForIp_sessionsHealthy ip s Hinv) as H.
    unfold requestHandler.
    destruct (getTargetForIp cfg targets ip s) as [[[t|]|err] s1]; cbn in *; try done.
    by destruct (String.eqb t "").
  - apply runMicrotasks_sessionsHealthy.
    apply (sessionsHealthy_same s); [| |done]; cbn.
    + unfold onProxyError, performHealthCheck.
      destruct (targetHealth s !! target); [|done].
      by rewrite (proj1 (proj2 (checkTargetHealth_frame _ _))).
    + pose proof (flags_onProxyError target s) as H. unfold flags in *. by cbn.
  - destruct (decide _); [|done].
    apply runMicrotasks_sessionsHealthy.
    apply (sessionsHealthy_same s); [| |done]; cbn; unfold performHealthCheck.
    + apply checkTargetHealth_frame.
    + unfold flags; cbn. by rewrite (proj1 (checkTargetHealth_frame _ _)).
  - destruct (awaiting s !! req); [|done]. by apply applyResult_sessionsHealthy.
  - destruct (StickySession.enabled _); [|done]. intros ip t. cbn. by rewrite lookup_empty.
  - cbn. apply (sessionsHealthy_same s); [| |done].
    + unfold shutdown. by destruct (isShuttingDown s).
    + unfold flags. by rewrite shutdown_targetHealth.
Qed.

(** X16.  In every state the event loop reaches from the initial one, each
    sticky entry references a healthy target. *)
Lemma reachable_sessionsHealthy (es : list (N * Event)) :
  sessionsHealthy (snd (run cfg targets es (initialState targets))).
Proof.
  assert (H : ∀ s, sessionsHealthy s → sessionsHealthy (snd (run cfg targets es s))).
  { induction es as [|[now e] es IH]; intros s Hinv; [done|].
    cbn [run].
    pose proof (step_sessionsHealthy now e s Hinv) as H1.
    destruct (step cfg targets now e s) as [[l|err] s1]; [|done].
    specialize (IH s1 H1).
    by destruct (run cfg targets es s1) as [[l'|err] s2]. }
  apply H. intros ip t. cbn. by rewrite lookup_empty.
Qed.

End SessionsHealthy.

(** ** How long a sticky entry lasts

    Between two turns of the event loop no continuation is pending.  From
    such a state, a turn other than the periodic reset keeps the entry of a
    client as long as its target is healthy after the turn. *)

Section StickyEntry.

Variable cfg : Config.
Variable targets : list string.

Lemma runMicrotasks_cons_snd (target : string) (result : HealthResult)
    (q : list (string * HealthResult)) (now : N) (s : State) :
  snd (runMicrotasks cfg ((target, result) :: q) now s)
  = match fst (applyResult cfg target result now s) with
    | Normal _ => snd (runMicrotasks cfg q now (snd (applyResult cfg target result now s)))
    | Throw _ => snd (applyResult cfg target result now s)
    end.
Proof.
  cbn [runMicrotasks].
  destruct (applyResult cfg target result now s) as [[l|e] s1]; cbn [fst snd]; [|done].
  by destruct (runMicrotasks cfg q now s1) as [[l'|e] s2].
Qed.

Lemma applyResult_microtasks (target : string) (result : HealthResult) (now : N)
    (s : State) :
  microtasks (snd (applyResult cfg target result now s)) = microtasks s.
Proof.
  destruct (targetHealth s !! target) as [h|] eqn:Hreg.
  - destruct (applyResult_registered cfg target result now s h Hreg) as (log & h' & Heq & _).
    by rewrite Heq.
  - unfold applyResult. by rewrite Hreg.
Qed.

Lemma runMicrotasks_microtasks (q : list (string * HealthResult)) (now : N) (s : State) :
  microtasks (snd (runMicrotasks cfg q now s)) = microtasks s.
Proof.
  revert s. induction q as [|[target result] q IH]; intros s; [done|].
  rewrite runMicrotasks_cons_snd.
  destruct (fst (applyResult cfg target result now s)).
  - by rewrite IH, applyResult_microtasks.
  - apply applyResult_microtasks.
Qed.

Lemma getTargetForIp_microtasks (ip : string) (s : State) :
  microtasks (snd (getTargetForIp cfg targets ip s)) = microtasks s.
Proof.
  assert (Hrr : ∀ s1, microtasks (snd (roundRobin cfg targets ip s1)) = microtasks s1).
  { intros s1. unfold roundRobin. destruct (_ =? 0); [done|].
    destruct (_ !! _); [|done]. by destruct (StickySession.enabled _). }
  assert (Hrem : ∀ t s1, microtasks (remember cfg ip t s1) = microtasks s1).
  { intros t s1. unfold remember. by destruct (StickySession.enabled _). }
  unfold getTargetForIp.
  destruct (stickyLookup cfg ip s) as [cached|s1] eqn:Hs; [done|].
  assert (microtasks s1 = microtasks s) as <-.
  { apply stickyLookup_inr in Hs as (_ & _ & [->| ->]); done. }
  destruct (failover cfg) as [fo|]; [|done].
  destruct (Failover.enabled fo && _); [|done].
  destruct (targets !! 0) as [service1|]; [|done].
  destruct (targets !! 1) as [service2|]; [|done].
  destruct (targetIsHealthy s1 service1); [by cbn|].
  destruct (targetIsDown s1 service1 && _); [by cbn | done].
Qed.

Lemma step_microtasks_empty (now : N) (e : Event) (s : State) :
  microtasks s = [] → microtasks (snd (step cfg targets now e s)) = [].
Proof.
  intros He. destruct e as [|ip|target|target|req o lat| |]; cbn [step].
  - unfold drain. by rewrite runMicrotasks_microtasks.
  - pose proof (getTargetForIp_microtasks ip s) as H. unfold requestHandler.
    destruct (getTargetForIp cfg targets ip s) as [[[t|]|err] s1]; cbn in *;
      try congruence.
    destruct (String.eqb t ""); cbn; congruence.
  - unfold drain. by rewrite runMicrotasks_microtasks.
  - destruct (decide _); [|done]. unfold drain. by rewrite runMicrotasks_microtasks.
  - destruct (awaiting s !! req); [|done]. by rewrite applyResult_microtasks.
  - by destruct (StickySession.enabled _).
  - unfold shutdown. by destruct (isShuttingDown s).
Qed.

Lemma reachable_microtasks_empty (es : list (N * Event)) :
  microtasks (snd (run cfg targets es (initialState targets))) = [].
Proof.
  assert (H : ∀ s, microtasks s = [] → microtasks (snd (run cfg targets es s)) = []).
  { induction es as [|[now e] es IH]; intros s He; [done|].
    cbn [run].
    pose proof (step_microtasks_empty now e s He) as H1.
    destruct (step cfg targets now e s) as [[l|err] s1]; [|done].
    specialize (IH s1 H1).
    by destruct (run cfg targets es s1) as [[l'|err] s2]. }
  by apply H.
Qed.

(** One application: the entry survives unless its target is unhealthy
    afterwards. *)
Lemma applyResult_entry (target : string) (result : HealthResult) (now : N) (s : State)
    (ip t : string) :
  sessionMap s !! ip = Some t →
  targetIsHealthy (snd (applyResult cfg target result now s)) t = true →
  sessionMap (snd (applyResult cfg target result now s)) !! ip = Some t.
Proof.
  intros Hc.
  destruct (targetHealth s !! target) as [h|] eqn:Hreg;
    [|unfold applyResult; by rewrite Hreg].
  destruct (applyResult_registered cfg target result now s h Hreg)
    as (log & h' & Heq & _).
  rewrite Heq. unfold targetIsHealthy.
  cbn [snd sessionMap targetHealth set_sessionMap set_targetHealth].
  destruct (decide (t = target)) as [->|Hne].
  - rewrite lookup_insert_eq. intros Hh'. by rewrite Hh', andb_false_r.
  - intros _. destruct (isHealthy h && negb (isHealthy h')); [|done].
    rewrite purgeSessions_lookup, Hc. by destruct (String.eqb_spec t target).
Qed.

(** A failed probe never makes a target healthy. *)
Lemma applyResult_stays_down (target : string) (result : HealthResult) (now : N)
    (s : State) (t : string) :
  res_isHealthy result = false →
  targetIsHealthy s t = false →
  targetIsHealthy (snd (applyResult cfg target result now s)) t = false.
Proof.
  intros Hfail Hd.
  destruct (targetHealth s !! target) as [h|] eqn:Hreg;
    [|unfold applyResult; by rewrite Hreg].
  destruct (applyResult_registered cfg target result now s h Hreg)
    as (log & h' & Heq & Hflag & _).
  rewrite Heq. unfold targetIsHealthy in *.
  cbn [snd targetHealth set_sessionMap set_targetHealth].
  destruct (decide (t = target)) as [->|Hne].
  - rewrite lookup_insert_eq. rewrite Hreg in Hd.
    unfold flagAfter in Hflag. by rewrite Hfail, Hd in Hflag.
  - by rewrite lookup_insert_ne.
Qed.

Lemma runMicrotasks_stays_down (q : list (string * HealthResult)) (now : N) (s : State)
    (t : string) :
  Forall (λ x, res_isHealthy (snd x) = false) q →
  targetIsHealthy s t = false →
  targetIsHealthy (snd (runMicrotasks cfg q now s)) t = false.
Proof.
  revert s. induction q as [|[target result] q IH]; intros s Hall Hd; [done|].
  apply Forall_cons in Hall as [Hfail Hall]. cbn [snd] in Hfail.
  rewrite runMicrotasks_cons_snd.
  pose proof (applyResult_stays_down target result now s t Hfail Hd) as H1.
  destruct (fst (applyResult cfg target result now s)); [by apply IH | done].
Qed.

Lemma runMicrotasks_entry (q : list (string * HealthResult)) (now : N) (s : State)
    (ip t : string) :
  Forall (λ x, res_isHealthy (snd x) = false) q →
  sessionMap s !! ip = Some t →
  targetIsHealthy (snd (runMicrotasks cfg q now s)) t = true →
  sessionMap (snd (runMicrotasks cfg q now s)) !! ip = Some t.
Proof.
  revert s. induction q as [|[target result] q IH]; intros s Hall Hc; [done|].
  apply Forall_cons in Hall as [Hfail Hall]. cbn [snd] in Hfail.
  rewrite runMicrotasks_cons_snd.
  pose proof (applyResult_entry target result now s ip t Hc) as H1.
  destruct (fst (applyResult cfg target result now s)); [|done].
  intros Hend. apply IH; [done| |done]. apply H1.
  destruct (targetIsHealthy (snd (applyResult cfg target result now s)) t) eqn:E; [done|].
  by rewrite (runMicrotasks_stays_down q now _ t Hall E) in Hend.
Qed.

Lemma checkTargetHealth_queue (target : string) (s : State) :
  Forall (λ x, res_isHealthy (snd x) = false) (microtasks s) →
  Forall (λ x, res_isHealthy (snd x) = false) (microtasks (checkTargetHealth target s)).
Proof.
  intros H. unfold checkTargetHealth. destruct (isShuttingDown s); [|done].
  cbn. apply Forall_app. split; [done|]. by repeat constructor.
Qed.

Lemma startHealthChecks_queue (s : State) :
  Forall (λ x, res_isHealthy (snd x) = false) (microtasks s) →
  Forall (λ x, res_isHealthy (snd x) = false) (microtasks (startHealthChecks cfg targets s)).
Proof.
  unfold startHealthChecks. destruct (HealthCheck.enabled _); [|done].
  revert s. induction targets as [|t ts IH]; intros s H; [done|].
  cbn [foldl]. apply IH. cbn. by apply checkTargetHealth_queue.
Qed.

Lemma getTargetForIp_entry (ip' ip t : string) (s : State) :
  sessionMap s !! ip = Some t →
  targetIsHealthy s t = true →
  sessionMap (snd (getTargetForIp cfg targets ip' s)) !! ip = Some t.
Proof.
  intros Hc Hh.
  assert (Hrr : ∀ s1, sessionMap s1 !! ip = Some t →
                (StickySession.enabled (stickySession cfg) = true → ip' ≠ ip) →
                sessionMap (snd (roundRobin cfg targets ip' s1)) !! ip = Some t).
  { intros s1 Hc1 Hne. unfold roundRobin. destruct (_ =? 0); [done|].
    destruct (getHealthyTargets targets s1 !! _); [|done].
    destruct (StickySession.enabled _); [|done].
    cbn. by rewrite lookup_insert_ne by auto. }
  assert (Hrem : ∀ x s1, sessionMap s1 !! ip = Some t →
                 (StickySession.enabled (stickySession cfg) = true → ip' ≠ ip) →
                 sessionMap (remember cfg ip' x s1) !! ip = Some t).
  { intros x s1 Hc1 Hne. unfold remember.
    destruct (StickySession.enabled _); [|done].
    cbn. by rewrite lookup_insert_ne by auto. }
  unfold getTargetForIp.
  destruct (stickyLookup cfg ip' s) as [cached|s1] eqn:Hs; [done|].
  assert (sessionMap s1 !! ip = Some t
          ∧ (StickySession.enabled (stickySession cfg) = true → ip' ≠ ip)) as [Hc1 Hne].
  { unfold stickyLookup in Hs.
    destruct (StickySession.enabled _); [|injection Hs as <-; by split].
    destruct (sessionMap s !! ip') as [cached|] eqn:Hc'.
    - destruct (targetIsHealthy s cached) eqn:Hhc; [done|]. injection Hs as <-.
      assert (ip' ≠ ip) as Hne by (intros ->; congruence).
      split; [|done]. cbn. by rewrite lookup_delete_ne.
    - injection Hs as <-. split; [done|]. intros _ ->. congruence. }
  destruct (failover cfg) as [fo|]; [|done].
  destruct (Failover.enabled fo && _); [|by apply Hrr].
  destruct (targets !! 0) as [service1|]; [|by apply Hrr].
  destruct (targets !! 1) as [service2|]; [|by apply Hrr].
  destruct (targetIsHealthy s1 service1); [by apply Hrem|].
  destruct (targetIsDown s1 service1 && _); [by apply Hrem | by apply Hrr].
Qed.

(** X17.  A turn of the event loop other than the periodic reset, started
    with no continuation pending, keeps the sticky entry of [ip] if its
    target is healthy after the turn. *)
Lemma sticky_entry_persists (now : N) (e : Event) (s : State) (ip t : string) :
  microtasks s = [] →
  e ≠ SessionReset →
  sessionMap s !! ip = Some t →
  targetIsHealthy (snd (step cfg targets now e s)) t = true →
  sessionMap (snd (step cfg targets now e s)) !! ip = Some t.
Proof.
  intros He Hne Hc.
  assert (Hq : Forall (λ x, res_isHealthy (snd x) = false) (microtasks s))
    by (rewrite He; constructor).
  destruct e as [|ip'|target|target|req o lat| |]; cbn [step]; [| | | | |done|].
  - unfold drain. apply runMicrotasks_entry; [by apply startHealthChecks_queue|].
    cbn. by rewrite startHealthChecks_sessions.
  - assert (Hsame : snd (match requestHandler cfg targets ip' s with
                         | (Normal _, s1) => (Normal [], s1)
                         | (Throw e, s1) => (Throw e, s1)
                         end : Completion (list LogLine) * State)
                    = snd (getTargetForIp cfg targets ip' s)).
    { unfold requestHandler.
      destruct (getTargetForIp cfg targets ip' s) as [[[x|]|err] s1]; try done.
      by destruct (String.eqb x ""). }
    rewrite Hsame. unfold targetIsHealthy. rewrite getTargetForIp_targetHealth.
    intros Hh. by apply getTargetForIp_entry.
  - unfold drain. apply runMicrotasks_entry.
    + unfold onProxyError, performHealthCheck.
      destruct (targetHealth s !! target); [|done]. by apply checkTargetHealth_queue.
    + cbn. unfold onProxyError, performHealthCheck.
      destruct (targetHealth s !! target); [|done].
      by rewrite (proj1 (proj2 (checkTargetHealth_frame _ _))).
  - destruct (decide _); [|done]. unfold drain. apply runMicrotasks_entry.
    + by apply checkTargetHealth_queue.
    + cbn. unfold performHealthCheck.
      by rewrite (proj1 (proj2 (checkTargetHealth_frame _ _))).
  - destruct (awaiting s !! req); [|done]. by apply applyResult_entry.
  - intros _. unfold shutdown. by destruct (isShuttingDown s).
Qed.

End StickyEntry.

(** ** Probe classification *)

(** C4, as amended.  In the two newer revisions a probe is a success
    exactly when a response arrives with status 200, a constant of the code;
    in the oldest revision exactly when a response arrives with a status
    from 200 to 399.  In all three a connection error and a timeout are
    failures, and so is the result produced without a request during
    shutdown. *)
Theorem probe_classification (o : ProbeOutcome) (latency : N) :
  (res_isHealthy (probeResult o latency) = true ↔ o = Response 200)
  ∧ (res_isHealthy (Rev2.probeResult o) = true ↔ o = Response 200)
  ∧ (res_isHealthy (Rev3.probeResult o) = true
     ↔ ∃ statusCode, o = Response statusCode ∧ (200 ≤ statusCode < 400)%Z)
  ∧ res_isHealthy shuttingDownResult = false.
Proof.
  destruct o as [statusCode|message|]; cbn; repeat split; try done.
  - intros H. apply Z.eqb_eq in H. by subst.
  - intros [= ->]. done.
  - intros H. apply Z.eqb_eq in H. by subst.
  - intros [= ->]. done.
  - intros H. apply andb_prop in H as [H1 H2].
    apply Z.leb_le in H1. apply Z.ltb_lt in H2. by exists statusCode.
  - intros (c & [= <-] & H1 & H2).
    apply andb_true_intro. split; [by apply Z.leb_le | by apply Z.ltb_lt].
  - by intros (c & [=] & _).
  - by intros (c & [=] & _).
Qed.

(** C4 as stated fails on the oldest revision: status 204 is not the
    success code 200, and the probe counts as a success. *)
Lemma probe_classification_counterexample :
  res_isHealthy (Rev3.probeResult (Response 204)) = true
  ∧ res_isHealthy (probeResult (Response 204) 10) = false
  ∧ ¬ (∀ o, res_isHealthy (Rev3.probeResult o) = true ↔ o = Response 200).
Proof.
  split; [reflexivity|]. split; [reflexivity|].
  intros H. destruct (H (Response 204)) as [H1 _].
  specialize (H1 eq_refl). discriminate H1.
Qed.

(** ** Shutdown *)

Lemma applyResult_ignores_isShuttingDown (cfg : Config) (target : string)
    (result : HealthResult) (now : N) (s : State) (b : bool) :
  applyResult cfg target result now (set_isShuttingDown b s)
  = (fst (applyResult cfg target result now s),
     set_isShuttingDown b (snd (applyResult cfg target result now s))).
Proof.
  unfold applyResult. cbn [targetHealth set_isShuttingDown].
  destruct (targetHealth s !! target) as [h|]; [|done].
  destruct (res_isHealthy result).
  - by destruct (negb _ && _).
  - destruct (_ && _); [done|]. by destruct (negb _).
Qed.

(** C3, as amended.  [shutdown] sets the flag, clears the probe timers and
    the set of active requests, and leaves the registry and the pending
    probe promises as they are; a second call does nothing.  While the flag
    is set, a probe attempt sends no request and resolves at once with the
    failure result "Shutting down".  Probe results are applied all the same:
    [performHealthCheck] does not read the flag, so the result of a probe
    that was in flight, or the "Shutting down" result, updates the counters
    and the [isHealthy] flag of a registered target exactly as it would
    before shutdown. *)
Theorem shutdown_stops_requests_not_results (cfg : Config) (targets : list string)
    (target : string) (result : HealthResult) (now : N) (s : State) (h : Health) :
  isShuttingDown s = true →
  targetHealth s !! target = Some h →
  shutdown s = s
  ∧ (∀ s0, isShuttingDown s0 = false →
       isShuttingDown (shutdown s0) = true
       ∧ healthCheckIntervals (shutdown s0) = ∅
       ∧ activeHealthCheckRequests (shutdown s0) = ∅
       ∧ targetHealth (shutdown s0) = targetHealth s0
       ∧ awaiting (shutdown s0) = awaiting s0
       ∧ ∀ t, step cfg targets now (Tick t) (shutdown s0) = (Normal [], shutdown s0))
  ∧ performHealthCheck target s
    = set_microtasks (λ q, q ++ [(target, shuttingDownResult)]) s
  ∧ applyResult cfg target result now s
    = (fst (applyResult cfg target result now (set_isShuttingDown false s)),
       set_isShuttingDown true
         (snd (applyResult cfg target result now (set_isShuttingDown false s))))
  ∧ (∀ req o lat, awaiting s !! req = Some target →
       step cfg targets now (ProbeEvent req o lat) s
       = applyResult cfg target (probeResult o lat) now
           (set_awaiting (delete req) (set_activeHealthCheckRequests (λ a, a ∖ {[req]}) s)))
  ∧ ∃ log h',
      fst (applyResult cfg target result now s) = Normal log
      ∧ targetHealth (snd (applyResult cfg target result now s)) !! target = Some h'
      ∧ isHealthy h' = flagAfter cfg result h
      ∧ failures h' = (if res_isHealthy result then 0 else failures h + 1)
      ∧ successes h' = (if res_isHealthy result then successes h + 1 else 0)
      ∧ lastCheck h' = Some now.
Proof.
  intros Hsd Hreg.
  split; [unfold shutdown; by rewrite Hsd|].
  split.
  { intros s0 H0. unfold shutdown. rewrite H0. cbn.
    by repeat split. }
  split; [unfold performHealthCheck, checkTargetHealth; by rewrite Hsd|].
  split.
  { rewrite <- (applyResult_ignores_isShuttingDown cfg target result now _ true).
    f_equal. destruct s; cbn in *. by subst. }
  split; [intros req o lat Haw; cbn [step]; by rewrite Haw|].
  destruct (applyResult_registered cfg target result now s h Hreg)
    as (log & h' & Heq & Hflag & Hf & Hs & Hlc & _).
  exists log, h'. rewrite Heq. cbn. rewrite lookup_insert_eq. by repeat split.
Qed.

Lemma shutdown_stops_requests_not_results_witness :
  isShuttingDown draining = true
  ∧ targetHealth draining !! targetA = Some initialHealth
  ∧ performHealthCheck targetA draining
    = set_microtasks (λ q, q ++ [(targetA, shuttingDownResult)]) draining
  ∧ ∃ log h',
      fst (applyResult config_failover targetA shuttingDownResult 3 draining) = Normal log
      ∧ targetHealth (snd (applyResult config_failover targetA shuttingDownResult 3 draining))
          !! targetA = Some h'
      ∧ isHealthy h' = flagAfter config_failover shuttingDownResult initialHealth
      ∧ failures h' = (if res_isHealthy shuttingDownResult then 0
                       else failures initialHealth + 1)
      ∧ successes h' = (if res_isHealthy shuttingDownResult
                        then successes initialHealth + 1 else 0)
      ∧ lastCheck h' = Some 3%N.
Proof.
  destruct (shutdown_stops_requests_not_results config_failover configuredTargets targetA
              shuttingDownResult 3 draining initialHealth eq_refl eq_refl)
    as (_ & _ & Hprobe & _ & _ & Happlied).
  split; [reflexivity|]. split; [reflexivity|]. split; [exact Hprobe | exact Happlied].
Defined.

(** C3 as stated fails: after shutdown has begun, the result of a probe that
    was in flight is applied to the counters, and a dispatch failure, whose
    out-of-band probe resolves with "Shutting down", takes a healthy target
    to unhealthy. *)
Lemma shutdown_stops_requests_not_results_counterexample :
  isShuttingDown draining = true
  ∧ awaiting draining !! 0 = Some targetA
  ∧ targetHealth draining !! targetA = Some initialHealth
  ∧ targetHealth
      (snd (step config_failover configuredTargets 3
              (ProbeEvent 0 (ConnError "socket hang up") 5) draining)) !! targetA
    = Some (mkHealth true 1 0 (Some 5%N) (Some 3%N))
  ∧ step config_failover configuredTargets 4 (ProxyError targetA) draining
    = (Normal [NowUnhealthy targetA (TextMsg "Shutting down")],
       set_targetHealth (insert targetA (mkHealth false 2 0 None (Some 4%N))) draining)
  ∧ ¬ (∀ now e s,
         isShuttingDown s = true →
         targetHealth (snd (step config_failover configuredTargets now e s)) = targetHealth s).
Proof.
  do 4 (split; [reflexivity|]).
  split; [vm_compute; reflexivity|].
  intros H. specialize (H 4%N (ProxyError targetA) draining eq_refl).
  apply (f_equal (λ m, isHealthy <$> m !! targetA)) in H.
  vm_compute in H. discriminate H.
Qed.

(** * Further properties of the code *)

(** ** The client address *)

Lemma takeWhile_Forall {A : Type} (p : A → bool) (l : list A) :
  Forall (λ x, p x = true) (takeWhile p l).
Proof.
  induction l as [|x l IH]; cbn; [constructor|].
  destruct (p x) eqn:E; by constructor.
Qed.

Lemma takeWhile_app_stop {A : Type} (p : A → bool) (l r : list A) (x : A) :
  p x = false → takeWhile p (l ++ x :: r) = takeWhile p l.
Proof.
  intros Hx. induction l as [|y l IH]; cbn; [by rewrite Hx|].
  destruct (p y); [by rewrite IH | done].
Qed.

Lemma takeWhile_all {A : Type} (p : A → bool) (l : list A) :
  Forall (λ x, p x = true) l → takeWhile p l = l.
Proof. induction 1 as [|x l Hx _ IH]; cbn; [done|]. by rewrite Hx, IH. Qed.

Lemma dropWhile_suffix {A : Type} (p : A → bool) (l : list A) :
  ∃ k, l = k ++ dropWhile p l ∧ Forall (λ x, p x = true) k.
Proof.
  induction l as [|x l (k & Hk & Hall)]; cbn; [by exists []|].
  destruct (p x) eqn:E.
  - exists (x :: k). split; [by rewrite Hk at 1 | by constructor].
  - by exists [].
Qed.

Lemma dropWhile_head {A : Type} (p : A → bool) (l : list A) (x : A) :
  head (dropWhile p l) = Some x → p x = false.
Proof.
  induction l as [|y l IH]; cbn; [done|].
  destruct (p y) eqn:E; [done|]. cbn. by intros [= <-].
Qed.

Lemma dropWhile_id {A : Type} (p : A → bool) (l : list A) :
  (∀ x, head l = Some x → p x = false) → dropWhile p l = l.
Proof. destruct l as [|y l]; cbn; [done|]. intros H. by rewrite (H y eq_refl). Qed.

(** [trim] keeps a contiguous piece of the string, between stripped
    white space on both sides. *)
Lemma trim_infix (l : jsstring) :
  ∃ before after,
    l = before ++ trim l ++ after
    ∧ Forall (λ c, isWhiteSpace c = true) before
    ∧ Forall (λ c, isWhiteSpace c = true) after.
Proof.
  unfold trim.
  destruct (dropWhile_suffix isWhiteSpace l) as (k1 & H1 & Hk1).
  destruct (dropWhile_suffix isWhiteSpace (reverse (dropWhile isWhiteSpace l)))
    as (k2 & H2 & Hk2).
  exists k1, (reverse k2). split; [|split; [done | by apply Forall_reverse]].
  rewrite H1 at 1. f_equal.
  rewrite <- (reverse_involutive (dropWhile isWhiteSpace l)) at 1.
  rewrite H2 at 1. by rewrite reverse_app.
Qed.

Lemma trim_ends (l : jsstring) :
  (∀ c, head (trim l) = Some c → isWhiteSpace c = false)
  ∧ (∀ c, last (trim l) = Some c → isWhiteSpace c = false).
Proof.
  unfold trim. set (m := dropWhile isWhiteSpace l).
  destruct (dropWhile_suffix isWhiteSpace (reverse m)) as (k & Hk & _).
  split; intros c Hc.
  - assert (m = reverse (dropWhile isWhiteSpace (reverse m)) ++ reverse k) as Hm.
    { rewrite <- (reverse_involutive m) at 1. rewrite Hk at 1. by rewrite reverse_app. }
    apply (dropWhile_head isWhiteSpace l). fold m. rewrite Hm.
    destruct (reverse (dropWhile isWhiteSpace (reverse m))); [done|]. exact Hc.
  - apply (dropWhile_head isWhiteSpace (reverse m)).
    by rewrite <- Hc, last_reverse.
Qed.

Lemma trim_id (l : jsstring) :
  (∀ c, head l = Some c → isWhiteSpace c = false) →
  (∀ c, last l = Some c → isWhiteSpace c = false) →
  trim l = l.
Proof.
  intros Hh Hl. unfold trim. rewrite (dropWhile_id _ l Hh).
  rewrite dropWhile_id; [apply reverse_involutive|].
  intros c Hc. apply Hl. by rewrite <- head_reverse, Hc.
Qed.

Lemma firstField_split (l : jsstring) :
  l = firstField l ++ dropWhile (λ c, negb (c =? comma)%N) l
  ∧ (dropWhile (λ c, negb (c =? comma)%N) l = []
     ∨ head (dropWhile (λ c, negb (c =? comma)%N) l) = Some comma).
Proof.
  unfold firstField. induction l as [|x l [IH1 IH2]]; cbn; [by split; [|left]|].
  destruct (N.eqb_spec x comma) as [->|Hne]; cbn.
  - split; [done | by right].
  - split; [by rewrite <- IH1 | done].
Qed.

(** X1.  With a non-empty [x-forwarded-for] header, [getClientIp] returns
    the first comma-separated field of the header with the white space
    around it stripped: a contiguous piece of the header that is followed,
    after white space, by the first comma or the end of the header, that
    holds no comma and that neither starts nor ends with white space.  (It
    can be empty.) *)
Theorem client_ip_is_first_field (c : N) (l : jsstring) (remoteAddress : option jsstring) :
  ∃ ip before after rest,
    getClientIp (Some (c :: l)) remoteAddress = Some ip
    ∧ c :: l = before ++ ip ++ after ++ rest
    ∧ Forall (λ x, isWhiteSpace x = true) before
    ∧ Forall (λ x, isWhiteSpace x = true) after
    ∧ (rest = [] ∨ head rest = Some comma)
    ∧ (comma ∉ ip)
    ∧ (∀ x, head ip = Some x → isWhiteSpace x = false)
    ∧ (∀ x, last ip = Some x → isWhiteSpace x = false).
Proof.
  set (h := c :: l).
  destruct (trim_infix (firstField h)) as (before & after & Hinf & Hb & Ha).
  destruct (firstField_split h) as [Hsplit Hrest].
  exists (trim (firstField h)), before, after, (dropWhile (λ c, negb (c =? comma)%N) h).
  split; [done|]. split.
  { rewrite Hsplit at 1. rewrite Hinf at 1. by rewrite <- !(assoc_L (++)). }
  split; [done|]. split; [done|]. split; [done|]. split; [|apply trim_ends].
  intros Hin.
  assert (comma ∈ firstField h) as Hin'.
  { rewrite Hinf. apply elem_of_app. right. apply elem_of_app. by left. }
  pose proof (takeWhile_Forall (λ c, negb (c =? comma)%N) h) as Hall.
  rewrite Forall_forall in Hall. specialize (Hall comma Hin'). by cbn in Hall.
Qed.

(** X2.  The header sent on names the same client: if [getClientIp] found
    [ip], and either the request carried a non-empty [x-forwarded-for]
    header or [ip] (then the socket's address) is non-empty, holds no comma
    and has no white space at its ends, then [getClientIp] applied to the
    [X-Forwarded-For] value built by the handler gives [ip] again. *)
Theorem forwarded_for_round_trip (existing remoteAddress remoteAddress' : option jsstring)
    (ip : jsstring) :
  getClientIp existing remoteAddress = Some ip →
  (∃ c l, existing = Some (c :: l))
  ∨ (ip ≠ [] ∧ (comma ∉ ip)
     ∧ (∀ x, head ip = Some x → isWhiteSpace x = false)
     ∧ (∀ x, last ip = Some x → isWhiteSpace x = false)) →
  getClientIp (forwardedFor existing (Some ip)) remoteAddress' = Some ip.
Proof.
  intros Hip Hcase.
  assert (Hclean : ∀ x, x ≠ [] → comma ∉ x →
            (∀ y, head x = Some y → isWhiteSpace y = false) →
            (∀ y, last x = Some y → isWhiteSpace y = false) →
            getClientIp (Some x) remoteAddress' = Some x).
  { intros x Hne Hc Hh Hl. destruct x as [|y x]; [done|]. cbn [getClientIp].
    unfold firstField. rewrite takeWhile_all; [by rewrite trim_id|].
    apply Forall_forall. intros z Hz.
    destruct (N.eqb_spec z comma) as [->|]; [done|done]. }
  destruct existing as [[|c l]|].
  - destruct Hcase as [(c & l & [=])|(Hne & Hc & Hh & Hl)].
    cbn [forwardedFor]. by apply Hclean.
  - unfold forwardedFor. cbn [default app]. cbn [getClientIp] in *.
    rewrite app_comm_cons. unfold firstField in *. by rewrite takeWhile_app_stop.
  - destruct Hcase as [(c & l & [=])|(Hne & Hc & Hh & Hl)].
    cbn [forwardedFor]. by apply Hclean.
Qed.

(** ** The status report *)

(** X3.  The report of [GET /status] lists the configured targets in the
    order of the [targets] array, each with the flag and the counters of its
    record; the targets it shows alive are, in order, exactly the pool
    [getHealthyTargets] that round-robin selects from. *)
Theorem status_report_matches_pool (targets : list string) (s : State) :
  map url (statusData targets s) = targets
  ∧ map url (List.filter alive (statusData targets s)) = getHealthyTargets targets s
  ∧ Forall (λ e, alive e = targetIsHealthy s (url e)
                 ∧ status_failures e = failuresOf s (url e)
                 ∧ status_successes e = successesOf s (url e))
      (statusData targets s).
Proof.
  unfold statusData, getHealthyTargets, targetIsHealthy, failuresOf, successesOf.
  induction targets as [|t ts (IH1 & IH2 & IH3)]; cbn [map List.filter];
    [by repeat split|].
  destruct (targetHealth s !! t) as [h|] eqn:Hreg; cbn [alive url].
  - split; [by rewrite IH1|]. split.
    + destruct (isHealthy h); cbn [map]; by rewrite IH2.
    + constructor; [cbn; by rewrite Hreg | done].
  - split; [by rewrite IH1|]. split; [done|].
    constructor; [cbn; by rewrite Hreg | done].
Qed.

(** ** What a selection returns and records *)

Section SelectionResult.

Variable cfg : Config.
Variable targets : list string.

Lemma sessionMap_remember (ip t : string) (s : State) :
  sessionMap (remember cfg ip t s)
  = if StickySession.enabled (stickySession cfg)
    then <[ip := t]> (sessionMap s) else sessionMap s.
Proof. unfold remember. by destruct (StickySession.enabled _). Qed.

Lemma roundRobin_result (ip t : string) (s s' : State) :
  roundRobin cfg targets ip s = (Normal (Some t), s') →
  targetIsHealthy s t = true
  ∧ t ∈ targets
  ∧ targetHealth s' = targetHealth s
  ∧ sessionMap s'
    = if StickySession.enabled (stickySession cfg)
      then <[ip := t]> (sessionMap s) else sessionMap s.
Proof.
  unfold roundRobin. destruct (_ =? 0); [done|].
  destruct (getHealthyTargets targets s !! _) as [x|] eqn:Hl; [|done].
  assert (targetIsHealthy s x = true ∧ x ∈ targets) as [Hh Hin].
  { apply list_elem_of_lookup_2 in Hl. apply list_elem_of_In in Hl.
    unfold getHealthyTargets in Hl. apply List.filter_In in Hl as [Hin Hh].
    split; [done | by apply list_elem_of_In]. }
  destruct (StickySession.enabled _); intros [= <- <-]; by repeat split.
Qed.

(** After the sticky prefix has missed, each of the three revisions
    returns a healthy element of [targets] and records it under [ip] when
    sticky sessions are enabled. *)
Lemma selection_after_miss (ip t : string) (s1 s' : State) :
  (match failover cfg with
   | None => (Throw TypeError, s1)
   | Some fo =>
       if Failover.enabled fo && (2 <=? length targets) then
         match targets !! 0, targets !! 1 with
         | Some service1, Some service2 =>
             if targetIsHealthy s1 service1 then
               (Normal (Some service1), remember cfg ip service1 s1)
             else if targetIsDown s1 service1 && targetIsHealthy s1 service2 then
               (Normal (Some service2), remember cfg ip service2 s1)
             else roundRobin cfg targets ip s1
         | _, _ => roundRobin cfg targets ip s1
         end
       else roundRobin cfg targets ip s1
   end = (Normal (Some t), s')
   ∨ match failover cfg with
     | None => (Throw TypeError, s1)
     | Some fo =>
         if Failover.enabled fo && (2 <=? length targets) then
           match targets !! 0, targets !! 1 with
           | Some service1, Some service2 =>
               if targetIsDown s1 service1 && targetIsHealthy s1 service2 then
                 (Normal (Some service2), remember cfg ip service2 s1)
               else roundRobin cfg targets ip s1
           | _, _ => roundRobin cfg targets ip s1
           end
         else roundRobin cfg targets ip s1
     end = (Normal (Some t), s')
   ∨ roundRobin cfg targets ip s1 = (Normal (Some t), s')) →
  targetIsHealthy s1 t = true
  ∧ t ∈ targets
  ∧ targetHealth s' = targetHealth s1
  ∧ sessionMap s'
    = if StickySession.enabled (stickySession cfg)
      then <[ip := t]> (sessionMap s1) else sessionMap s1.
Proof.
  pose proof (roundRobin_result ip t s1 s') as Hrr.
  assert (Hrem : ∀ x, targets !! 0 = Some x ∨ targets !! 1 = Some x →
            targetIsHealthy s1 x = true →
            (Normal (Some x), remember cfg ip x s1)
            = (Normal (Some t) : Completion (option string), s') →
            targetIsHealthy s1 t = true ∧ t ∈ targets
            ∧ targetHealth s' = targetHealth s1
            ∧ sessionMap s'
              = if StickySession.enabled (stickySession cfg)
                then <[ip := t]> (sessionMap s1) else sessionMap s1).
  { intros x Hx Hh [= <- <-]. split; [done|]. split.
    - destruct Hx as [Hx|Hx]; by apply list_elem_of_lookup_2 in Hx.
    - split; [apply remember_frame | apply sessionMap_remember]. }
  intros [H|[H|H]]; [| |by apply Hrr].
  - destruct (failover cfg) as [fo|]; [|done].
    destruct (Failover.enabled fo && _); [|by apply Hrr].
    destruct (targets !! 0) as [service1|] eqn:H0; [|by apply Hrr].
    destruct (targets !! 1) as [service2|] eqn:H1; [|by apply Hrr].
    destruct (targetIsHealthy s1 service1) eqn:Hh1; [by apply (Hrem service1); auto|].
    destruct (targetIsDown s1 service1); cbn [andb] in H; [|by apply Hrr].
    destruct (targetIsHealthy s1 service2) eqn:Hh2; [|by apply Hrr].
    by apply (Hrem service2); auto.
  - destruct (failover cfg) as [fo|]; [|done].
    destruct (Failover.enabled fo && _); [|by apply Hrr].
    destruct (targets !! 0) as [service1|] eqn:H0; [|by apply Hrr].
    destruct (targets !! 1) as [service2|] eqn:H1; [|by apply Hrr].
    destruct (targetIsDown s1 service1); cbn [andb] in H; [|by apply Hrr].
    destruct (targetIsHealthy s1 service2) eqn:Hh2; [|by apply Hrr].
    by apply (Hrem service2); auto.
Qed.

Lemma stickyLookup_inl (ip cached : string) (s : State) :
  stickyLookup cfg ip s = inl cached →
  StickySession.enabled (stickySession cfg) = true
  ∧ sessionMap s !! ip = Some cached
  ∧ targetIsHealthy s cached = true.
Proof.
  unfold stickyLookup. destruct (StickySession.enabled _); [|done].
  destruct (sessionMap s !! ip) as [c|]; [|done].
  destruct (targetIsHealthy s c) eqn:Hh; [|done]. by intros [= <-].
Qed.

Lemma stickyLookup_inr_sessions (ip : string) (s s1 : State) :
  stickyLookup cfg ip s = inr s1 →
  ∀ ip', ip' ≠ ip → sessionMap s1 !! ip' = sessionMap s !! ip'.
Proof.
  intros Hs ip' Hne. apply stickyLookup_inr in Hs as (_ & _ & [->| ->]); [done|].
  cbn. by rewrite lookup_delete_ne.
Qed.

(** What any of the three [getTargetForIp] returns, when it returns a
    target. *)
Lemma selection_result (ip t : string) (s s' : State) :
  getTargetForIp cfg targets ip s = (Normal (Some t), s')
  ∨ Rev2.getTargetForIp cfg targets ip s = (Normal (Some t), s')
  ∨ Rev3.getTargetForIp cfg targets ip s = (Normal (Some t), s') →
  targetIsHealthy s t = true
  ∧ targetHealth s' = targetHealth s
  ∧ (sessionMap s !! ip = Some t ∧ s' = s ∨ t ∈ targets)
  ∧ (StickySession.enabled (stickySession cfg) = true → sessionMap s' !! ip = Some t)
  ∧ (∀ ip', ip' ≠ ip → sessionMap s' !! ip' = sessionMap s !! ip').
Proof.
  unfold getTargetForIp, Rev2.getTargetForIp, Rev3.getTargetForIp.
  destruct (stickyLookup cfg ip s) as [cached|s1] eqn:Hs.
  - intros Hret. assert (cached = t ∧ s = s') as [-> <-].
    { destruct Hret as [H|[H|H]]; by injection H. }
    apply stickyLookup_inl in Hs as (Hen & Hc & Hh). by repeat split; auto.
  - intros Hret.
    destruct (selection_after_miss ip t s1 s' Hret) as (Hh & Hin & Hth & Hsm).
    pose proof (stickyLookup_inr_sessions ip s s1 Hs) as Hother.
    apply stickyLookup_inr in Hs as (Hth1 & _ & _).
    split; [unfold targetIsHealthy in *; by rewrite <- Hth1|].
    split; [congruence|]. split; [by right|]. rewrite Hsm. split.
    + intros ->. by rewrite lookup_insert_eq.
    + intros ip' Hne. destruct (StickySession.enabled _); [|by apply Hother].
      rewrite lookup_insert_ne by done. by apply Hother.
Qed.

End SelectionResult.

(** X4.  Whatever the revision, a target returned by [getTargetForIp] is
    healthy at the time of the call, the call leaves the registry as it was,
    and, if the registry holds only configured targets, the target returned
    is one of [targets]. *)
Theorem selection_returns_healthy (cfg : Config) (targets : list string) (ip t : string)
    (s s' : State) :
  getTargetForIp cfg targets ip s = (Normal (Some t), s')
  ∨ Rev2.getTargetForIp cfg targets ip s = (Normal (Some t), s')
  ∨ Rev3.getTargetForIp cfg targets ip s = (Normal (Some t), s') →
  targetIsHealthy s t = true
  ∧ targetIsHealthy s' t = true
  ∧ targetHealth s' = targetHealth s
  ∧ ((∀ x, is_Some (targetHealth s !! x) → x ∈ targets) → t ∈ targets).
Proof.
  intros Hret.
  destruct (selection_result cfg targets ip t s s' Hret) as (Hh & Hth & Hin & _).
  split; [done|]. split; [unfold targetIsHealthy in *; by rewrite Hth|].
  split; [done|]. intros Hreg.
  destruct Hin as [_|Hin]; [|done]. apply Hreg.
  unfold targetIsHealthy in Hh. by destruct (targetHealth s !! t).
Qed.

(** X5.  With sticky sessions enabled, a call that returns a target records
    it under the client key and touches no other client's entry; the next
    call for the same client returns the same target and changes nothing,
    the cursor included. *)
Theorem selection_is_remembered (cfg : Config) (targets : list string) (ip t : string)
    (s s' : State) :
  StickySession.enabled (stickySession cfg) = true →
  getTargetForIp cfg targets ip s = (Normal (Some t), s') →
  sessionMap s' !! ip = Some t
  ∧ (∀ ip', ip' ≠ ip → sessionMap s' !! ip' = sessionMap s !! ip')
  ∧ getTargetForIp cfg targets ip s' = (Normal (Some t), s').
Proof.
  intros Hen Hret.
  destruct (selection_result cfg targets ip t s s' (or_introl Hret))
    as (Hh & Hth & _ & Hrec & Hother).
  split; [by apply Hrec|]. split; [done|].
  apply affinity_hit_once; [done | by apply Hrec|].
  unfold targetIsHealthy in *. by rewrite Hth.
Qed.

(** ** Round-robin *)

Section RoundRobin.

Variable cfg : Config.
Variable targets : list string.

Lemma rotate_nat_add_mod (base offset len : nat) :
  rotate_nat_add base offset len = (base + offset) mod len.
Proof.
  unfold rotate_nat_add. by rewrite <- Nat2Z.inj_add, <- Nat2Z.inj_mod, Nat2Z.id.
Qed.

Lemma set_current_twice (m n : nat) (s : State) :
  set_current m (set_current n s) = set_current m s.
Proof. done. Qed.

(** One call when sticky sessions and failover are off (or there are fewer
    than two targets): the healthy target at the cursor's slot, and the
    cursor moved on by one. *)
Lemma plain_round_robin_step (ip : string) (s : State) (fo : Failover.t) :
  StickySession.enabled (stickySession cfg) = false →
  failover cfg = Some fo →
  Failover.enabled fo && (2 <=? length targets) = false →
  getHealthyTargets targets s ≠ [] →
  getTargetForIp cfg targets ip s
  = (Normal (getHealthyTargets targets s
               !! (current s mod length (getHealthyTargets targets s))),
     set_current ((current s + 1) mod length (getHealthyTargets targets s)) s).
Proof.
  intros Hst Hfo Hoff Hne.
  unfold getTargetForIp, stickyLookup. rewrite Hst, Hfo, Hoff.
  unfold roundRobin. rewrite Hst.
  assert (length (getHealthyTargets targets s) ≠ 0) as Hlen
    by (by destruct (getHealthyTargets targets s)).
  destruct (Nat.eqb_spec (length (getHealthyTargets targets s)) 0); [done|].
  destruct (roundRobin_index_in_range targets s Hlen) as [t Ht]. by rewrite Ht.
Qed.

Lemma plain_round_robin_run (ip : string) (fo : Failover.t) (k : nat) (s : State) :
  StickySession.enabled (stickySession cfg) = false →
  failover cfg = Some fo →
  Failover.enabled fo && (2 <=? length targets) = false →
  getHealthyTargets targets s ≠ [] →
  selectRepeatedly cfg targets ip k s
  = (map (λ i, Normal (getHealthyTargets targets s
                         !! ((current s + i) mod length (getHealthyTargets targets s))))
         (seq 0 k),
     if k =? 0 then s
     else set_current ((current s + k) mod length (getHealthyTargets targets s)) s).
Proof.
  intros Hst Hfo Hoff. revert s. induction k as [|k IH]; intros s Hne; [done|].
  cbn [selectRepeatedly].
  rewrite (plain_round_robin_step ip s fo Hst Hfo Hoff Hne).
  set (n := length (getHealthyTargets targets s)).
  rewrite (IH (set_current ((current s + 1) mod n) s)) by done.
  change (getHealthyTargets targets (set_current ((current s + 1) mod n) s))
    with (getHealthyTargets targets s).
  fold n. cbn [current set_current Nat.eqb seq map].
  rewrite Nat.add_0_r. f_equal.
  - f_equal. rewrite <- seq_shift, map_map. apply map_ext. intros i.
    rewrite Nat.Div0.add_mod_idemp_l.
    do 3 f_equal. lia.
  - destruct k; cbn [Nat.eqb]; [done|].
    rewrite set_current_twice. f_equal.
    rewrite Nat.Div0.add_mod_idemp_l.
    f_equal. lia.
Qed.

End RoundRobin.

(** X6.  Plain round-robin (sticky sessions off, failover off or fewer than
    two targets) with a non-empty pool [H] of healthy targets whose health
    does not change: the [i]-th of [k] successive calls returns
    [H[(current + i) mod |H|]] and the cursor ends at [(current + k) mod
    |H|]; in particular [|H|] successive calls return every healthy target
    exactly once, in configuration order starting at the cursor. *)
Theorem round_robin_rotation (cfg : Config) (targets : list string) (ip : string)
    (fo : Failover.t) (k : nat) (s : State) :
  StickySession.enabled (stickySession cfg) = false →
  failover cfg = Some fo →
  Failover.enabled fo && (2 <=? length targets) = false →
  getHealthyTargets targets s ≠ [] →
  selectRepeatedly cfg targets ip k s
  = (map (λ i, Normal (getHealthyTargets targets s
                         !! ((current s + i) mod length (getHealthyTargets targets s))))
         (seq 0 k),
     if k =? 0 then s
     else set_current ((current s + k) mod length (getHealthyTargets targets s)) s)
  ∧ fst (selectRepeatedly cfg targets ip (length (getHealthyTargets targets s)) s)
    = map (λ t, Normal (Some t)) (rotate (current s) (getHealthyTargets targets s)).
Proof.
  intros Hst Hfo Hoff Hne.
  split; [by apply (plain_round_robin_run cfg targets ip fo)|].
  rewrite (plain_round_robin_run cfg targets ip fo _ s Hst Hfo Hoff Hne). cbn [fst].
  set (H := getHealthyTargets targets s).
  apply list_eq. intros i. rewrite !list_lookup_fmap.
  destruct (decide (i < length H)) as [Hlt|Hge].
  - rewrite lookup_seq_lt by done. cbn.
    rewrite lookup_rotate_r by done. rewrite rotate_nat_add_mod.
    destruct (lookup_lt_is_Some_2 H ((current s + i) mod length H)) as [t Ht].
    { apply Nat.mod_upper_bound. lia. }
    by rewrite Ht.
  - rewrite lookup_seq_ge by lia.
    rewrite (lookup_ge_None_2 (rotate _ _)); [done|]. rewrite length_rotate. lia.
Qed.

Section Cursor.

Variable cfg : Config.
Variable targets : list string.

Lemma applyResult_current (target : string) (result : HealthResult) (now : N) (s : State) :
  current (snd (applyResult cfg target result now s)) = current s.
Proof.
  destruct (targetHealth s !! target) as [h|] eqn:Hreg.
  - destruct (applyResult_registered cfg target result now s h Hreg) as (log & h' & Heq & _).
    by rewrite Heq.
  - unfold applyResult. by rewrite Hreg.
Qed.

Lemma runMicrotasks_current (q : list (string * HealthResult)) (now : N) (s : State) :
  current (snd (runMicrotasks cfg q now s)) = current s.
Proof.
  revert s. induction q as [|[target result] q IH]; intros s; [done|].
  rewrite runMicrotasks_cons_snd.
  destruct (fst (applyResult cfg target result now s)).
  - by rewrite IH, applyResult_current.
  - apply applyResult_current.
Qed.

Lemma startHealthChecks_current (s : State) :
  current (startHealthChecks cfg targets s) = current s.
Proof.
  unfold startHealthChecks. destruct (HealthCheck.enabled _); [|done].
  revert s. induction targets as [|t ts IH]; intros s; [done|].
  cbn [foldl]. rewrite IH. cbn. apply checkTargetHealth_frame.
Qed.

Lemma getTargetForIp_current (ip : string) (s : State) :
  current (snd (getTargetForIp cfg targets ip s)) = current s
  ∨ current (snd (getTargetForIp cfg targets ip s)) < length targets.
Proof.
  assert (Hrr : ∀ s1, current s1 = current s →
            current (snd (roundRobin cfg targets ip s1)) = current s
            ∨ current (snd (roundRobin cfg targets ip s1)) < length targets).
  { intros s1 Hc. unfold roundRobin.
    destruct (Nat.eqb_spec (length (getHealthyTargets targets s1)) 0) as [|Hn];
      [by left|].
    assert (current (set_current ((current s1 + 1) mod length (getHealthyTargets targets s1))
                       s1) < length targets) as Hlt.
    { cbn. eapply Nat.lt_le_trans; [by apply Nat.mod_upper_bound|].
      unfold getHealthyTargets. apply List.filter_length_le. }
    destruct (getHealthyTargets targets s1 !! _); [|by right].
    destruct (StickySession.enabled _); by right. }
  unfold getTargetForIp.
  destruct (stickyLookup cfg ip s) as [cached|s1] eqn:Hs; [by left|].
  apply stickyLookup_inr in Hs as (_ & Hc & _).
  destruct (failover cfg) as [fo|]; [|by left].
  pose proof (λ t, proj2 (remember_frame cfg ip t s1)) as Hrem.
  destruct (Failover.enabled fo && _); [|by apply Hrr].
  destruct (targets !! 0) as [service1|]; [|by apply Hrr].
  destruct (targets !! 1) as [service2|]; [|by apply Hrr].
  destruct (targetIsHealthy s1 service1); [left; cbn; by rewrite Hrem|].
  destruct (targetIsDown s1 service1 && _); [left; cbn; by rewrite Hrem | by apply Hrr].
Qed.

Lemma step_current (now : N) (e : Event) (s : State) :
  current (snd (step cfg targets now e s)) = current s
  ∨ current (snd (step cfg targets now e s)) < length targets.
Proof.
  destruct e as [|ip|target|target|req o lat| |]; cbn [step].
  - left. unfold drain. rewrite runMicrotasks_current. cbn.
    apply startHealthChecks_current.
  - pose proof (getTargetForIp_current ip s) as H. unfold requestHandler.
    destruct (getTargetForIp cfg targets ip s) as [[[t|]|err] s1]; cbn in *; try done.
    by destruct (String.eqb t "").
  - left. unfold drain. rewrite runMicrotasks_current. cbn.
    unfold onProxyError, performHealthCheck.
    destruct (targetHealth s !! target); [|done].
    by rewrite (proj1 (proj2 (proj2 (checkTargetHealth_frame _ _)))).
  - left. destruct (decide _); [|done].
    unfold drain. rewrite runMicrotasks_current. cbn. unfold performHealthCheck.
    by rewrite (proj1 (proj2 (proj2 (checkTargetHealth_frame _ _)))).
  - left. destruct (awaiting s !! req); [|done]. by rewrite applyResult_current.
  - left. by destruct (StickySession.enabled _).
  - left. cbn. unfold shutdown. by destruct (isShuttingDown s).
Qed.

End Cursor.

(** X7.  In every state the event loop reaches from the initial one, the
    round-robin cursor is 0 or below the number of configured targets: it
    never grows with the number of requests. *)
Theorem cursor_stays_in_range (cfg : Config) (targets : list string)
    (es : list (N * Event)) :
  current (snd (run cfg targets es (initialState targets))) = 0
  ∨ current (snd (run cfg targets es (initialState targets))) < length targets.
Proof.
  assert (H : ∀ s, (current s = 0 ∨ current s < length targets) →
            current (snd (run cfg targets es s)) = 0
            ∨ current (snd (run cfg targets es s)) < length targets).
  { induction es as [|[now e] es IH]; intros s Hs; [done|].
    cbn [run].
    pose proof (step_current cfg targets now e s) as H1.
    assert (current (snd (step cfg targets now e s)) = 0
            ∨ current (snd (step cfg targets now e s)) < length targets) as H2.
    { destruct H1 as [->|]; [done | by right]. }
    destruct (step cfg targets now e s) as [[l|err] s1]; [|done].
    specialize (IH s1 H2).
    by destruct (run cfg targets es s1) as [[l'|err] s2]. }
  apply H. by left.
Qed.

(** ** Recovery and the fast path *)

(** X9.  Consecutive successful probes: [successes] grows by one each time
    and [failures] is 0 from the first one on; an unhealthy target becomes
    healthy as soon as [successes] reaches [healthyThreshold], with one
    transition event in the whole run, and a healthy target stays healthy
    with none. *)
Theorem consecutive_successes (cfg : Config) (target : string)
    (rs : list (HealthResult * N)) (s : State) (h : Health) :
  targetHealth s !! target = Some h →
  Forall (λ r, res_isHealthy (fst r) = true) rs →
  ∃ log s' h',
    applyResults cfg target rs s = (Normal log, s')
    ∧ targetHealth s' !! target = Some h'
    ∧ successes h' = successes h + length rs
    ∧ failures h' = (if length rs =? 0 then failures h else 0)
    ∧ isHealthy h'
      = isHealthy h
        || (negb (length rs =? 0)
            && (HealthCheck.healthyThreshold (healthCheck cfg) <=? successes h + length rs))
    ∧ length (transitions log) = (if negb (isHealthy h) && isHealthy h' then 1 else 0).
Proof.
  revert s h. induction rs as [|[result now] rs IH]; intros s h Hreg Hall.
  - exists [], s, h. cbn. rewrite Hreg, Nat.add_0_r, orb_false_r.
    repeat split. by destruct (isHealthy h).
  - apply Forall_cons in Hall as [Hok Hall]. cbn [fst] in Hok.
    destruct (applyResult_registered cfg target result now s h Hreg)
      as (log1 & h1 & Heq & Hflag & Hf & Hs & _ & _ & Htr).
    unfold flagAfter in Hflag. rewrite Hok in Hflag, Hf, Hs.
    assert (Hreg1 : targetHealth (snd (applyResult cfg target result now s)) !! target
                    = Some h1).
    { rewrite Heq. cbn. by rewrite lookup_insert_eq. }
    destruct (IH _ h1 Hreg1 Hall) as (log' & s' & h' & Heq' & Hreg' & Hs' & Hf' & Hflag' & Htr').
    exists (log1 ++ log'), s', h'.
    cbn [applyResults]. rewrite Heq in Heq' |- *. cbn [snd] in Heq'. rewrite Heq'.
    split; [done|]. split; [done|].
    split; [cbn [length]; lia|].
    split; [cbn [length Nat.eqb]; rewrite Hf', Hf; by destruct (length rs =? 0)|].
    unfold transitions in *. rewrite List.filter_app, length_app, Htr', Htr.
    rewrite Hflag', Hflag, Hs. cbn [length Nat.eqb negb andb].
    destruct (isHealthy h); cbn [andb negb orb]; [done|].
    destruct (Nat.leb_spec (HealthCheck.healthyThreshold (healthCheck cfg))
                (successes h + 1)) as [Hle|Hgt]; cbn [andb negb orb length].
    + split; [|done]. symmetry. apply Nat.leb_le. lia.
    + destruct (Nat.eqb_spec (length rs) 0) as [Hz|Hnz]; cbn [andb negb orb].
      * rewrite Hz. split; [|done]. symmetry. apply Nat.leb_gt. lia.
      * replace (successes h + 1 + length rs) with (successes h + S (length rs)) by lia.
        by destruct (_ <=? _).
Qed.


(** ** Starting the probes *)

Lemma initialState_lookup (targets : list string) (t : string) :
  t ∈ targets → targetHealth (initialState targets) !! t = Some initialHealth.
Proof.
  unfold initialState. cbn [targetHealth].
  assert (H : ∀ (l : list string) (m : gmap string Health),
             t ∈ l ∨ m !! t = Some initialHealth →
             foldl (λ m target, <[target := initialHealth]> m) m l !! t
             = Some initialHealth).
  { induction l as [|x l IH]; intros m Hin; cbn [foldl].
    - destruct Hin as [Hin|]; [by apply elem_of_nil in Hin | done].
    - apply IH. destruct Hin as [Hin|Hm].
      + apply elem_of_cons in Hin as [->|Hin]; [right; apply lookup_insert_eq | by left].
      + right. destruct (decide (x = t)) as [->|Hne];
          [apply lookup_insert_eq | by rewrite lookup_insert_ne]. }
  intros Hin. apply H. by left.
Qed.

Lemma filter_all_true {A : Type} (p : A → bool) (l : list A) :
  (∀ x, x ∈ l → p x = true) → List.filter p l = l.
Proof.
  induction l as [|x l IH]; intros H; [done|].
  cbn [List.filter]. rewrite (H x) by left. f_equal.
  apply IH. intros y Hy. apply H. by right.
Qed.

(** X8.  At start-up every configured target has a record that is healthy
    with both counters at 0, so the pool of healthy targets is the whole
    [targets] array in order, and the first request is sent to [targets[0]]
    (with an empty array the answer is [null], hence 503). *)
Theorem initial_state_all_healthy (cfg : Config) (targets : list string) (ip : string)
    (fo : Failover.t) :
  failover cfg = Some fo →
  (∀ t, t ∈ targets → targetHealth (initialState targets) !! t = Some initialHealth)
  ∧ getHealthyTargets targets (initialState targets) = targets
  ∧ fst (getTargetForIp cfg targets ip (initialState targets)) = Normal (head targets).
Proof.
  intros Hfo.
  assert (Hpool : getHealthyTargets targets (initialState targets) = targets).
  { unfold getHealthyTargets. apply filter_all_true. intros t Ht.
    unfold targetIsHealthy. by rewrite (initialState_lookup targets t Ht). }
  split; [apply initialState_lookup|]. split; [done|].
  assert (Hrr : fst (roundRobin cfg targets ip (initialState targets))
                = Normal (head targets)).
  { unfold roundRobin. rewrite Hpool.
    destruct targets as [|t ts]; [done|].
    cbn [length Nat.eqb]. change (current (initialState (t :: ts))) with 0.
    rewrite Nat.Div0.mod_0_l. cbn [lookup list_lookup head].
    by destruct (StickySession.enabled _). }
  unfold getTargetForIp.
  assert (stickyLookup cfg ip (initialState targets) = inr (initialState targets)) as ->.
  { unfold stickyLookup. by destruct (StickySession.enabled _). }
  rewrite Hfo.
  destruct (Failover.enabled fo && _); [|done].
  destruct targets as [|service1 [|service2 ts]]; [done|done|].
  cbn [lookup list_lookup].
  assert (targetIsHealthy (initialState (service1 :: service2 :: ts)) service1 = true) as ->.
  { unfold targetIsHealthy. rewrite initialState_lookup; [done | left]. }
  done.
Qed.

Section StartProbes.

Variable cfg : Config.

Lemma startHealthChecks_fold (l : list string) (s : State) :
  let s' := foldl (λ s target,
                     set_healthCheckIntervals (λ i, {[target]} ∪ i)
                       (performHealthCheck target s)) s l in
  isShuttingDown s' = isShuttingDown s
  ∧ healthCheckIntervals s' = list_to_set l ∪ healthCheckIntervals s
  ∧ (if isShuttingDown s
     then microtasks s' = microtasks s ++ map (λ t, (t, shuttingDownResult)) l
          ∧ awaiting s' = awaiting s
          ∧ activeHealthCheckRequests s' = activeHealthCheckRequests s
          ∧ nextReq s' = nextReq s
     else microtasks s' = microtasks s
          ∧ nextReq s' = nextReq s + length l
          ∧ (∀ r, r < nextReq s → awaiting s' !! r = awaiting s !! r)
          ∧ (∀ r, r ∈ activeHealthCheckRequests s → r ∈ activeHealthCheckRequests s')
          ∧ (∀ i t, l !! i = Some t →
               awaiting s' !! (nextReq s + i) = Some t
               ∧ nextReq s + i ∈ activeHealthCheckRequests s')).
Proof.
  revert s. induction l as [|t l IH]; intros s; cbn zeta.
  - cbn [foldl list_to_set map length]. rewrite union_empty_l_L.
    split; [done|]. split; [done|].
    destruct (isShuttingDown s); [by rewrite app_nil_r|].
    rewrite Nat.add_0_r. by repeat split.
  - cbn [foldl].
    set (s1 := set_healthCheckIntervals (λ i, {[t]} ∪ i) (performHealthCheck t s)).
    specialize (IH s1). cbn zeta in IH. destruct IH as (Hsd & Hint & Hrest).
    assert (isShuttingDown s1 = isShuttingDown s) as Hsd1.
    { unfold s1, performHealthCheck. cbn. apply checkTargetHealth_frame. }
    split; [congruence|]. split.
    { rewrite Hint. unfold s1. cbn [healthCheckIntervals set_healthCheckIntervals list_to_set].
      unfold performHealthCheck, checkTargetHealth.
      destruct (isShuttingDown s); cbn; by rewrite (assoc_L (∪)), (comm_L (∪) _ {[t]}). }
    assert (Hs1 : if isShuttingDown s
                  then microtasks s1 = microtasks s ++ [(t, shuttingDownResult)]
                       ∧ awaiting s1 = awaiting s
                       ∧ activeHealthCheckRequests s1 = activeHealthCheckRequests s
                       ∧ nextReq s1 = nextReq s
                  else microtasks s1 = microtasks s
                       ∧ nextReq s1 = S (nextReq s)
                       ∧ awaiting s1 = <[nextReq s := t]> (awaiting s)
                       ∧ activeHealthCheckRequests s1
                         = {[nextReq s]} ∪ activeHealthCheckRequests s).
    { unfold s1, performHealthCheck, checkTargetHealth.
      by destruct (isShuttingDown s). }
    rewrite Hsd1 in Hrest. clearbody s1.
    destruct (isShuttingDown s) eqn:Esd.
    + destruct Hrest as (Hm & Ha & Hact & Hn).
      destruct Hs1 as (Hm1 & Ha1 & Hact1 & Hn1).
      rewrite Hm, Ha, Hact, Hn, Hm1, Ha1, Hact1, Hn1. cbn [map].
      by rewrite <- (assoc_L (++)).
    + destruct Hrest as (Hm & Hn & Ha & Hact & Hnew).
      destruct Hs1 as (Hm1 & Hn1 & Ha1 & Hact1).
      split; [congruence|]. split; [cbn [length]; lia|]. split.
      { intros r Hr. rewrite Ha by lia. rewrite Ha1. by rewrite lookup_insert_ne by lia. }
      split.
      { intros r Hr. apply Hact. rewrite Hact1. by apply elem_of_union_r. }
      intros [|i] x Hx; cbn in Hx.
      * injection Hx as <-. rewrite Nat.add_0_r. split.
        -- rewrite Ha by lia. rewrite Ha1. apply lookup_insert_eq.
        -- apply Hact. rewrite Hact1. by apply elem_of_union_l, elem_of_singleton.
      * replace (nextReq s + S i) with (nextReq s1 + i) by lia. by apply Hnew.
Qed.

End StartProbes.

(** X11.  With health checks enabled, [startHealthChecks] in a running
    process sends one probe to each target, in the order of [targets] (the
    [i]-th new request is for [targets[i]] and is in
    [activeHealthCheckRequests]), and gives each target a timer, without
    touching the requests already in flight, the registry, the sessions or
    the cursor. *)
Theorem startHealthChecks_probes_every_target (cfg : Config) (targets : list string)
    (s : State) :
  HealthCheck.enabled (healthCheck cfg) = true →
  isShuttingDown s = false →
  healthCheckIntervals (startHealthChecks cfg targets s)
  = list_to_set targets ∪ healthCheckIntervals s
  ∧ nextReq (startHealthChecks cfg targets s) = nextReq s + length targets
  ∧ (∀ i t, targets !! i = Some t →
       awaiting (startHealthChecks cfg targets s) !! (nextReq s + i) = Some t
       ∧ nextReq s + i ∈ activeHealthCheckRequests (startHealthChecks cfg targets s))
  ∧ (∀ r, r < nextReq s →
       awaiting (startHealthChecks cfg targets s) !! r = awaiting s !! r)
  ∧ targetHealth (startHealthChecks cfg targets s) = targetHealth s
  ∧ sessionMap (startHealthChecks cfg targets s) = sessionMap s
  ∧ current (startHealthChecks cfg targets s) = current s.
Proof.
  intros Hen Hsd.
  pose proof (startHealthChecks_fold targets s) as H. cbn zeta in H.
  rewrite Hsd in H. destruct H as (_ & Hint & _ & Hn & Ha & _ & Hnew).
  rewrite startHealthChecks_targetHealth, startHealthChecks_sessions,
    startHealthChecks_current.
  unfold startHealthChecks. rewrite Hen.
  split; [exact Hint|]. split; [exact Hn|]. split; [exact Hnew|]. split; [exact Ha|].
  done.
Qed.

(** ** Probe requests during shutdown and late probe events *)

Section ProbeRequests.

Variable cfg : Config.
Variable targets : list string.

(** [applyResult] writes [targetHealth] and [sessionMap] only. *)
Lemma applyResult_shape (target : string) (result : HealthResult) (now : N) (s : State) :
  ∃ th sm,
    snd (applyResult cfg target result now s)
    = set_sessionMap (λ _, sm) (set_targetHealth (λ _, th) s).
Proof.
  destruct (targetHealth s !! target) as [h|] eqn:Hreg.
  - destruct (applyResult_registered cfg target result now s h Hreg) as (log & h' & Heq & _).
    rewrite Heq. by eexists _, _.
  - unfold applyResult. rewrite Hreg. exists (targetHealth s), (sessionMap s).
    by destruct s.
Qed.

Lemma runMicrotasks_shape (q : list (string * HealthResult)) (now : N) (s : State) :
  ∃ th sm,
    snd (runMicrotasks cfg q now s)
    = set_sessionMap (λ _, sm) (set_targetHealth (λ _, th) s).
Proof.
  revert s. induction q as [|[target result] q IH]; intros s.
  - exists (targetHealth s), (sessionMap s). by destruct s.
  - rewrite runMicrotasks_cons_snd.
    destruct (applyResult_shape target result now s) as (th1 & sm1 & H1).
    destruct (fst (applyResult cfg target result now s)); [|by eexists _, _].
    destruct (IH (snd (applyResult cfg target result now s))) as (th2 & sm2 & H2).
    rewrite H2, H1. by exists th2, sm2.
Qed.

(** [getTargetForIp] writes [sessionMap] and [current] only. *)
Lemma getTargetForIp_shape (ip : string) (s : State) :
  ∃ sm c,
    snd (getTargetForIp cfg targets ip s) = set_current c (set_sessionMap (λ _, sm) s).
Proof.
  assert (Hid : ∀ s0 : State, ∃ sm c, s0 = set_current c (set_sessionMap (λ _, sm) s0)).
  { intros s0. exists (sessionMap s0), (current s0). by destruct s0. }
  assert (Hrr : ∀ s1, (∃ sm c, s1 = set_current c (set_sessionMap (λ _, sm) s)) →
            ∃ sm c, snd (roundRobin cfg targets ip s1)
                    = set_current c (set_sessionMap (λ _, sm) s)).
  { intros s1 (sm & c & ->). unfold roundRobin.
    destruct (_ =? 0); [by eexists _, _|].
    destruct (getHealthyTargets targets _ !! _); [|by eexists _, _].
    destruct (StickySession.enabled _); by eexists _, _. }
  assert (Hrem : ∀ t s1, (∃ sm c, s1 = set_current c (set_sessionMap (λ _, sm) s)) →
            ∃ sm c, remember cfg ip t s1 = set_current c (set_sessionMap (λ _, sm) s)).
  { intros t s1 (sm & c & ->). unfold remember.
    destruct (StickySession.enabled _); by eexists _, _. }
  unfold getTargetForIp.
  destruct (stickyLookup cfg ip s) as [cached|s1] eqn:Hs; [apply Hid|].
  assert (∃ sm c, s1 = set_current c (set_sessionMap (λ _, sm) s)) as Hs1.
  { apply stickyLookup_inr in Hs as (_ & _ & [->| ->]); [apply Hid|].
    exists (delete ip (sessionMap s)), (current s). by destruct s. }
  destruct (failover cfg) as [fo|]; [|done].
  destruct (Failover.enabled fo && _); [|by apply Hrr].
  destruct (targets !! 0) as [service1|]; [|by apply Hrr].
  destruct (targets !! 1) as [service2|]; [|by apply Hrr].
  destruct (targetIsHealthy s1 service1); [by apply Hrem|].
  destruct (targetIsDown s1 service1 && _); [by apply Hrem | by apply Hrr].
Qed.

Lemma step_while_shutting_down (now : N) (e : Event) (s : State) :
  isShuttingDown s = true →
  isShuttingDown (snd (step cfg targets now e s)) = true
  ∧ nextReq (snd (step cfg targets now e s)) = nextReq s
  ∧ awaiting (snd (step cfg targets now e s)) ⊆ awaiting s
  ∧ activeHealthCheckRequests (snd (step cfg targets now e s))
    ⊆ activeHealthCheckRequests s.
Proof.
  intros Hsd.
  assert (Hdrain : ∀ s1, isShuttingDown s1 = true → nextReq s1 = nextReq s →
            awaiting s1 = awaiting s →
            activeHealthCheckRequests s1 = activeHealthCheckRequests s →
            isShuttingDown (snd (drain cfg now s1)) = true
            ∧ nextReq (snd (drain cfg now s1)) = nextReq s
            ∧ awaiting (snd (drain cfg now s1)) ⊆ awaiting s
            ∧ activeHealthCheckRequests (snd (drain cfg now s1))
              ⊆ activeHealthCheckRequests s).
  { intros s1 H1 H2 H3 H4. unfold drain.
    destruct (runMicrotasks_shape (microtasks s1) now (set_microtasks (λ _, []) s1))
      as (th & sm & ->).
    cbn. by rewrite H1, H2, H3, H4. }
  assert (Hprobe : ∀ t s1, isShuttingDown s1 = true →
            isShuttingDown (performHealthCheck t s1) = true
            ∧ nextReq (performHealthCheck t s1) = nextReq s1
            ∧ awaiting (performHealthCheck t s1) = awaiting s1
            ∧ activeHealthCheckRequests (performHealthCheck t s1)
              = activeHealthCheckRequests s1).
  { intros t s1 H1. unfold performHealthCheck, checkTargetHealth. by rewrite H1. }
  destruct e as [|ip|target|target|req o lat| |]; cbn [step].
  - unfold startHealthChecks. destruct (HealthCheck.enabled _); [|by apply Hdrain].
    pose proof (startHealthChecks_fold targets s) as H. cbn zeta in H.
    rewrite Hsd in H. destruct H as (H1 & _ & _ & H3 & H4 & H2).
    apply Hdrain; congruence.
  - assert (snd (match requestHandler cfg targets ip s with
                 | (Normal _, s1) => (Normal [], s1)
                 | (Throw e, s1) => (Throw e, s1)
                 end : Completion (list LogLine) * State)
            = snd (getTargetForIp cfg targets ip s)) as ->.
    { unfold requestHandler.
      destruct (getTargetForIp cfg targets ip s) as [[[x|]|err] s1]; try done.
      by destruct (String.eqb x ""). }
    destruct (getTargetForIp_shape ip s) as (sm & c & ->). by cbn.
  - unfold onProxyError. destruct (targetHealth s !! target) as [h|]; [|by apply Hdrain].
    destruct (Hprobe target (set_targetHealth
                (insert target (mkHealth (isHealthy h) (failures h + 1) (successes h)
                                  (latency h) (lastCheck h))) s) Hsd)
      as (H1 & H2 & H3 & H4).
    by apply Hdrain.
  - destruct (decide _); [|by cbn].
    destruct (Hprobe target s Hsd) as (H1 & H2 & H3 & H4). by apply Hdrain.
  - destruct (awaiting s !! req) as [t|].
    + destruct (applyResult_shape t (probeResult o lat) now
                  (set_awaiting (delete req)
                     (set_activeHealthCheckRequests (λ a, a ∖ {[req]}) s)))
        as (th & sm & ->).
      cbn. split; [done|]. split; [done|].
      split; [apply delete_subseteq | apply subseteq_difference_l; done].
    + cbn. split; [done|]. split; [done|].
      split; [done | apply subseteq_difference_l; done].
  - by destruct (StickySession.enabled _).
  - cbn. unfold shutdown. by rewrite Hsd.
Qed.

End ProbeRequests.

(** X12.  Shutdown is permanent and sends nothing: from a state in which
    [isShuttingDown] is set, whatever events follow, the flag stays set, no
    probe request is created and none is added to
    [activeHealthCheckRequests] or to the set of awaited probes. *)
Theorem no_probe_request_after_shutdown (cfg : Config) (targets : list string)
    (es : list (N * Event)) (s : State) :
  isShuttingDown s = true →
  isShuttingDown (snd (run cfg targets es s)) = true
  ∧ nextReq (snd (run cfg targets es s)) = nextReq s
  ∧ awaiting (snd (run cfg targets es s)) ⊆ awaiting s
  ∧ activeHealthCheckRequests (snd (run cfg targets es s)) ⊆ activeHealthCheckRequests s.
Proof.
  revert s. induction es as [|[now e] es IH]; intros s Hsd; [done|].
  cbn [run].
  pose proof (step_while_shutting_down cfg targets now e s Hsd) as (H1 & H2 & H3 & H4).
  destruct (step cfg targets now e s) as [[l|err] s1]; [|done].
  cbn [snd] in *. destruct (IH s1 H1) as (I1 & I2 & I3 & I4).
  assert (snd (match run cfg targets es s1 with
               | (Normal l', s2) => (Normal (l ++ l'), s2)
               | (Throw e0, s2) => (Throw e0, s2)
               end : Completion (list LogLine) * State)
          = snd (run cfg targets es s1)) as ->
    by (by destruct (run cfg targets es s1) as [[l'|err] s2]).
  split; [done|]. split; [congruence|].
  split; [by etrans | by etrans].
Qed.


(** ** Only a successful probe revives a target *)

(** X18.  Started with no continuation pending, a turn of the event loop
    leaves an unhealthy target unhealthy unless the turn handles a probe
    response with status 200: requests, dispatch failures, timer ticks,
    failed probes, the session reset and the termination signal never make
    a target healthy. *)
Theorem unhealthy_until_probe_succeeds (cfg : Config) (targets : list string) (now : N)
    (e : Event) (s : State) (t : string) :
  microtasks s = [] →
  targetIsHealthy s t = false →
  (∀ req lat, e ≠ ProbeEvent req (Response 200) lat) →
  targetIsHealthy (snd (step cfg targets now e s)) t = false.
Proof.
  intros He Hd Hne.
  assert (Hq : Forall (λ x, res_isHealthy (snd x) = false) (microtasks s))
    by (rewrite He; constructor).
  assert (Hdrain : ∀ s1, Forall (λ x, res_isHealthy (snd x) = false) (microtasks s1) →
            flags s1 = flags s →
            targetIsHealthy (snd (drain cfg now s1)) t = false).
  { intros s1 Hq1 Hfl. unfold drain. apply runMicrotasks_stays_down; [done|].
    unfold targetIsHealthy in *. cbn.
    assert (flags s1 !! t = flags s !! t) as Ht by by rewrite Hfl.
    unfold flags in Ht. rewrite !lookup_fmap in Ht.
    destruct (targetHealth s !! t), (targetHealth s1 !! t); cbn in Ht; congruence. }
  destruct e as [|ip|target|target|req o lat| |]; cbn [step].
  - apply Hdrain; [by apply startHealthChecks_queue|].
    unfold flags. by rewrite startHealthChecks_targetHealth.
  - unfold targetIsHealthy.
    pose proof (requestHandler_targetHealth cfg targets ip s) as H.
    destruct (requestHandler cfg targets ip s) as [[r|err] s1]; cbn in *; by rewrite H.
  - apply Hdrain; [|apply flags_onProxyError].
    unfold onProxyError, performHealthCheck.
    destruct (targetHealth s !! target); [|done]. by apply checkTargetHealth_queue.
  - destruct (decide _); [|done]. apply Hdrain.
    + by apply checkTargetHealth_queue.
    + unfold flags, performHealthCheck. by rewrite (proj1 (checkTargetHealth_frame _ _)).
  - destruct (awaiting s !! req) as [x|]; [|done].
    apply applyResult_stays_down; [|done].
    destruct o as [statusCode|message|]; [|done|done]. cbn.
    destruct (Z.eqb_spec statusCode 200) as [->|]; [|done].
    by destruct (Hne req lat).
  - by destruct (StickySession.enabled _).
  - cbn. unfold targetIsHealthy. by rewrite shutdown_targetHealth.
Qed.

(** ** Instances *)

Lemma forwarded_for_round_trip_witness :
  getClientIp (Some sampleHeader) None = Some (codeUnits "203.0.113.7")
  ∧ forwardedFor (Some sampleHeader) (Some (codeUnits "203.0.113.7"))
    = Some (codeUnits " 203.0.113.7 , 10.0.0.1, 203.0.113.7")
  ∧ getClientIp (forwardedFor (Some sampleHeader) (Some (codeUnits "203.0.113.7"))) None
    = Some (codeUnits "203.0.113.7").
Proof.
  split; [reflexivity|]. split; [reflexivity|].
  apply (forwarded_for_round_trip (Some sampleHeader) None None
           (codeUnits "203.0.113.7") eq_refl).
  left. by eexists _, _.
Defined.

Lemma selection_returns_healthy_witness :
  getTargetForIp config_failover configuredTargets "ip1" (initialState configuredTargets)
  = (Normal (Some targetA), initialState configuredTargets)
  ∧ targetIsHealthy (initialState configuredTargets) targetA = true.
Proof.
  split; [reflexivity|].
  apply (selection_returns_healthy config_failover configuredTargets "ip1" targetA
           (initialState configuredTargets) (initialState configuredTargets)).
  left. reflexivity.
Defined.

Lemma selection_is_remembered_witness :
  getTargetForIp config_sticky configuredTargets "ip1" (initialState configuredTargets)
  = (Normal (Some targetA), afterFirstSelect)
  ∧ sessionMap afterFirstSelect !! "ip1" = Some targetA
  ∧ getTargetForIp config_sticky configuredTargets "ip1" afterFirstSelect
    = (Normal (Some targetA), afterFirstSelect).
Proof.
  destruct (selection_is_remembered config_sticky configuredTargets "ip1" targetA
              (initialState configuredTargets) afterFirstSelect eq_refl eq_refl)
    as (Hrec & _ & Hagain).
  split; [reflexivity|]. split; [exact Hrec | exact Hagain].
Defined.

Lemma round_robin_rotation_witness :
  getHealthyTargets configuredTargets (initialState configuredTargets) = configuredTargets
  ∧ selectRepeatedly config_plain configuredTargets "ip1" 3 (initialState configuredTargets)
    = ([Normal (Some targetA); Normal (Some targetB); Normal (Some targetA)],
       set_current 1 (initialState configuredTargets))
  ∧ fst (selectRepeatedly config_plain configuredTargets "ip1" 2
           (initialState configuredTargets))
    = [Normal (Some targetA); Normal (Some targetB)].
Proof.
  split; [reflexivity|].
  assert (getHealthyTargets configuredTargets (initialState configuredTargets) ≠ []) as Hne
    by discriminate.
  split.
  - exact (proj1 (round_robin_rotation config_plain configuredTargets "ip1"
                    (Failover.mk false) 3 (initialState configuredTargets)
                    eq_refl eq_refl eq_refl Hne)).
  - exact (proj2 (round_robin_rotation config_plain configuredTargets "ip1"
                    (Failover.mk false) 0 (initialState configuredTargets)
                    eq_refl eq_refl eq_refl Hne)).
Defined.

Lemma initial_state_all_healthy_witness :
  failover config_failover = Some (Failover.mk true)
  ∧ fst (getTargetForIp config_failover configuredTargets "ip1"
           (initialState configuredTargets)) = Normal (Some targetA).
Proof.
  split; [reflexivity|].
  exact (proj2 (proj2 (initial_state_all_healthy config_failover configuredTargets "ip1"
                         (Failover.mk true) eq_refl))).
Defined.

Lemma consecutive_successes_witness :
  targetHealth allDown !! targetA = Some (mkHealth false 2 0 (Some 3000%N) (Some 6%N))
  ∧ ∃ log s' h',
      applyResults config_failover targetA twoSuccesses allDown = (Normal log, s')
      ∧ targetHealth s' !! targetA = Some h'
      ∧ successes h' = 2
      ∧ failures h' = 0
      ∧ isHealthy h' = true
      ∧ length (transitions log) = 1.
Proof.
  split; [reflexivity|].
  destruct (consecutive_successes config_failover targetA twoSuccesses allDown
              (mkHealth false 2 0 (Some 3000%N) (Some 6%N)) eq_refl)
    as (log & s' & h' & Heq & Hreg & Hs & Hf & Hfl & Htr).
  { repeat constructor. }
  exists log, s', h'. rewrite Hfl in Htr. by repeat split.
Defined.

Lemma consecutive_failures_witness :
  targetHealth (initialState configuredTargets) !! targetA = Some initialHealth
  ∧ ∃ log s' h',
      applyResults config_failover targetA twoTimeouts (initialState configuredTargets)
      = (Normal log, s')
      ∧ targetHealth s' !! targetA = Some h'
      ∧ failures h' = 2
      ∧ isHealthy h' = false
      ∧ length (transitions log) = 1.
Proof.
  split; [reflexivity|].
  destruct (consecutive_failures config_failover targetA twoTimeouts
              (initialState configuredTargets) initialHealth eq_refl)
    as (log & s' & h' & Heq & Hreg & Hf & Hfl & Htr).
  { repeat constructor. }
  exists log, s', h'. rewrite Hfl in Htr. by repeat split.
Defined.


Lemma startHealthChecks_probes_every_target_witness :
  nextReq (startHealthChecks config_failover configuredTargets
             (initialState configuredTargets)) = 2
  ∧ awaiting (startHealthChecks config_failover configuredTargets
                (initialState configuredTargets)) !! 0 = Some targetA
  ∧ awaiting (startHealthChecks config_failover configuredTargets
                (initialState configuredTargets)) !! 1 = Some targetB.
Proof.
  destruct (startHealthChecks_probes_every_target config_failover configuredTargets
              (initialState configuredTargets) eq_refl eq_refl)
    as (_ & Hn & Hnew & _).
  split; [exact Hn|].
  split; [exact (proj1 (Hnew 0 targetA eq_refl)) | exact (proj1 (Hnew 1 targetB eq_refl))].
Defined.

Lemma no_probe_request_after_shutdown_witness :
  isShuttingDown draining = true
  ∧ nextReq draining = 2
  ∧ nextReq (snd (run config_failover configuredTargets
                    [(3%N, ProxyError targetA); (4%N, Tick targetA); (5%N, Listening);
                     (6%N, Request "ip1")] draining)) = 2.
Proof.
  split; [reflexivity|]. split; [reflexivity|].
  exact (proj1 (proj2 (no_probe_request_after_shutdown config_failover configuredTargets
                         [(3%N, ProxyError targetA); (4%N, Tick targetA); (5%N, Listening);
                          (6%N, Request "ip1")] draining eq_refl))).
Defined.

Lemma sticky_entry_persists_witness :
  microtasks afterFirstSelect = []
  ∧ sessionMap afterFirstSelect !! "ip1" = Some targetA
  ∧ sessionMap (snd (step config_sticky configuredTargets 5 (Request "ip2")
                       afterFirstSelect)) !! "ip1" = Some targetA.
Proof.
  split; [reflexivity|]. split; [reflexivity|].
  apply (sticky_entry_persists config_sticky configuredTargets 5 (Request "ip2")
           afterFirstSelect "ip1" targetA); [reflexivity | discriminate | reflexivity
                                            | reflexivity].
Defined.

Lemma unhealthy_until_probe_succeeds_witness :
  microtasks allDown = []
  ∧ targetIsHealthy allDown targetA = false
  ∧ targetIsHealthy
      (snd (step config_failover configuredTargets 9 (ProxyError targetA) allDown))
      targetA = false.
Proof.
  split; [reflexivity|]. split; [reflexivity|].
  apply (unhealthy_until_probe_succeeds config_failover configuredTargets 9
           (ProxyError targetA) allDown targetA); [reflexivity | reflexivity|].
  intros req lat. discriminate.
Defined.
